(** * The database acquisition pipeline of [database-fetcher.ts]

    A shallow embedding of
    [extensions/ql-vscode/src/databases/database-fetcher.ts]: the file
    system the functions read and write, the host collaborators they call
    (editor prompts, network, CodeQL CLI, database manager), and the
    functions themselves written in a state-and-error monad over that
    world. *)

From Equations Require Import Equations.
From Stdlib Require Import List String Ascii Bool Arith NArith Lia DecimalString.
Import ListNotations.
Open Scope string_scope.
Open Scope list_scope.

Set Warnings "-register-all".

(** String concatenation, as the template literals and [+] of the source. *)
Infix "+++" := String.append (right associativity, at level 60).

(** ** File system

    A file system is a tree.  A regular file carries its bytes; a zip file
    carries the tree it was compressed from; a directory carries its entries
    in the order [readdir] lists them. *)

Inductive node : Type :=
| File (bytes : string)
| Zip (image : node)
| Dir (entries : list (string * node)).

(** A path is the list of the components of a normalised absolute path,
    outermost first; [[]] is the root. *)
Definition path := list string.

(** [path.join(dir, segment)] for one segment without separator: an empty
    segment and ["."] are dropped, [".."] climbs, anything else descends. *)
Definition join (dir : path) (segment : string) : path :=
  if (segment =? "") || (segment =? ".") then dir
  else if segment =? ".." then removelast dir
  else dir ++ [segment].

(** [`${p}${ext}`]: text appended to the last component of a path. *)
Definition add_ext (p : path) (ext : string) : path :=
  match rev p with
  | [] => [ext]
  | c :: r => rev r ++ [c +++ ext]
  end.

(** [path.basename] of a path already split in components. *)
Definition basename_of (p : path) : string := last p "".

Definition is_directory (n : node) : bool :=
  match n with Dir _ => true | _ => false end.

Definition readdir_names (entries : list (string * node)) : list string :=
  map fst entries.

(** [files.includes(file)] *)
Definition includes (files : list string) (file : string) : bool :=
  existsb (String.eqb file) files.

(** ** DatabaseRootLocator: [findDirWithFile]

    [n] is the node that [stat(dir)] and [readdir(dir)] observe.  A path that
    [join] returns is never the empty string, so the test [if (result)] of the
    source is the test for [undefined]. *)
Fixpoint findDirWithFile (dir : path) (n : node) (toFind : list string)
  : option path :=
  match n with
  | Dir entries =>
      let files := readdir_names entries in
      if existsb (fun file => includes files file) toFind then Some dir
      else
        (fix each (es : list (string * node)) : option path :=
           match es with
           | [] => None
           | (file, child) :: rest =>
               match findDirWithFile (join dir file) child toFind with
               | Some result => Some result
               | None => each rest
               end
           end) entries
  | _ => None
  end.

(** The loop of [findDirWithFile] over the listing, named. *)
Fixpoint first_result (dir : path) (toFind : list string)
  (es : list (string * node)) : option path :=
  match es with
  | [] => None
  | (file, child) :: rest =>
      match findDirWithFile (join dir file) child toFind with
      | Some result => Some result
      | None => first_result dir toFind rest
      end
  end.

(** A directory bears a marker when one of its immediate children has a
    marker name. *)
Definition bears_marker (entries : list (string * node)) (toFind : list string)
  : bool :=
  existsb (fun file => includes (readdir_names entries) file) toFind.

(** Every marker-bearing directory of the tree below [dir], in depth-first
    pre-order of the listing. *)
Fixpoint marker_dirs (dir : path) (n : node) (toFind : list string)
  : list path :=
  match n with
  | Dir entries =>
      (if bears_marker entries toFind then [dir] else []) ++
      (fix each (es : list (string * node)) : list path :=
         match es with
         | [] => []
         | (file, child) :: rest =>
             marker_dirs (join dir file) child toFind ++ each rest
         end) entries
  | _ => []
  end.

Fixpoint marker_dirs_below (dir : path) (toFind : list string)
  (es : list (string * node)) : list path :=
  match es with
  | [] => []
  | (file, child) :: rest =>
      marker_dirs (join dir file) child toFind ++ marker_dirs_below dir toFind rest
  end.


(** ** Reading and writing the tree *)

(** The first entry with a given name. *)
Fixpoint assoc (c : string) (es : list (string * node)) : option node :=
  match es with
  | [] => None
  | (c', m) :: rest => if c =? c' then Some m else assoc c rest
  end.

(** Replace the entry named [c], or add it at the end of the listing. *)
Fixpoint put (c : string) (m : node) (es : list (string * node))
  : list (string * node) :=
  match es with
  | [] => [(c, m)]
  | (c', m') :: rest =>
      if c =? c' then (c, m) :: rest else (c', m') :: put c m rest
  end.

(** Drop the entry named [c]. *)
Fixpoint del (c : string) (es : list (string * node)) : list (string * node) :=
  match es with
  | [] => []
  | (c', m') :: rest => if c =? c' then del c rest else (c', m') :: del c rest
  end.

Fixpoint lookup (n : node) (p : path) : option node :=
  match p with
  | [] => Some n
  | c :: p' =>
      match n with
      | Dir es => match assoc c es with Some m => lookup m p' | None => None end
      | _ => None
      end
  end.

(** [pathExists(p)] *)
Definition pathExists (root : node) (p : path) : bool :=
  match lookup root p with Some _ => true | None => false end.

(** Create or replace the file or tree at [p]; the parent of [p] has to be
    an existing directory ([None] otherwise). *)
Fixpoint write (n : node) (p : path) (v : node) : option node :=
  match p, n with
  | c :: p', Dir es =>
      match p' with
      | [] => Some (Dir (put c v es))
      | _ :: _ =>
          match assoc c es with
          | Some m =>
              match write m p' v with
              | Some m' => Some (Dir (put c m' es))
              | None => None
              end
          | None => None
          end
      end
  | _, _ => None
  end.

(** [remove(p)] of fs-extra: delete the file or the whole tree at [p];
    nothing happens when [p] does not exist. *)
Fixpoint remove (n : node) (p : path) : node :=
  match p, n with
  | c :: p', Dir es =>
      match p' with
      | [] => Dir (del c es)
      | _ :: _ =>
          match assoc c es with
          | Some m => Dir (put c (remove m p') es)
          | None => n
          end
      end
  | _, _ => n
  end.

(** [ensureDir(p)] of fs-extra: create the directory and its missing
    ancestors; [None] when a component exists and is not a directory. *)
Fixpoint mkdirp (n : node) (p : path) : option node :=
  match n with
  | Dir es =>
      match p with
      | [] => Some n
      | c :: p' =>
          match mkdirp (match assoc c es with Some m => m | None => Dir [] end) p' with
          | Some m' => Some (Dir (put c m' es))
          | None => None
          end
      end
  | _ => None
  end.

(** ** Strings of the source *)

Definition slash : ascii := "/"%char.

(** [s.split("/")] *)
Fixpoint segments (s : string) : list string :=
  match s with
  | EmptyString => [""]
  | String c s' =>
      if Ascii.eqb c slash then "" :: segments s'
      else match segments s' with
           | seg :: rest => String c seg :: rest
           | [] => [String c ""]
           end
  end.

(** The components of an absolute path given as text. *)
Definition resolve (s : string) : path := fold_left join (segments s) [].

(** [path.basename(s)]: the last non-empty segment, [""] if there is none. *)
Definition basename (s : string) : string :=
  last (filter (fun seg => negb (seg =? "")) (segments s)) "".

(** [s.endsWith(suffix)] *)
Definition endsWith (s suffix : string) : bool :=
  let n := String.length s in
  let m := String.length suffix in
  (m <=? n)%nat && (substring (n - m) m s =? suffix).

(** [haystack.includes(needle)] *)
Fixpoint str_includes (haystack needle : string) : bool :=
  prefix needle haystack ||
  match haystack with
  | EmptyString => false
  | String _ rest => str_includes rest needle
  end.

(** Decimal rendering of a number in a template literal. *)
Definition string_of_nat (n : nat) : string :=
  NilEmpty.string_of_uint (Nat.to_uint n).

(** [!s] for an optional string: [undefined] and [""] are falsy. *)
Definition falsy (s : option string) : bool :=
  match s with
  | None => true
  | Some s => s =? ""
  end.

Definition newline : string := String (ascii_of_nat 10) EmptyString.

Definition quote : string := String (ascii_of_nat 34) EmptyString.

(** Each number is at most the next one. *)
Fixpoint non_decreasing (steps : list nat) : bool :=
  match steps with
  | a :: (b :: _) as rest => (a <=? b)%nat && non_decreasing rest
  | _ => true
  end.

(** ** Values of the source *)

(** The fields of a vscode [Uri] that the fetcher reads. *)
Record Uri : Type := {
  scheme : string;
  authority : string;
  uri_path : string
}.

(** [uri.fsPath] on a POSIX host. *)
Definition fsPath (u : Uri) : string :=
  if negb (authority u =? "") && (1 <? String.length (uri_path u))%nat
     && (scheme u =? "file")
  then "//" +++ authority u +++ uri_path u
  else uri_path u.

(** What a JavaScript [throw] carries here: a plain [Error] or node-fetch's
    [AbortError], each with its message. *)
Inductive error : Type :=
| Error (message : string)
| AbortError (message : string).

Definition getErrorMessage (e : error) : string :=
  match e with Error m => m | AbortError m => m end.

Inductive result (A : Type) : Type :=
| Ok (value : A)
| Throw (e : error).
Arguments Ok {A} value.
Arguments Throw {A} e.

Record ProgressUpdate : Type := {
  message : string;
  step : nat;
  maxStep : nat
}.

Record QuickPickItem : Type := {
  label : string;
  description : string;
  language : string
}.

(** One entry of the code-scanning API's database listing. *)
Record CodeqlDatabase : Type := {
  db_language : string;
  db_url : string;
  db_id : nat;
  db_created_at : string;
  db_commit_oid : option string
}.

Inductive DatabaseOrigin : Type :=
| OriginUrl (url : string)
| OriginArchive (archive : string)
| OriginGithub (repository : string) (databaseId : nat)
    (databaseCreatedAt : string) (commitOid : option string).

Record DatabaseItem : Type := {
  databaseUri : path;
  item_origin : DatabaseOrigin;
  item_name : option string
}.

(** The body of an HTTP response as the download sees it: the sizes of the
    data chunks received, then either the end of the stream, with the
    content that reached the archive file, or an error after a part of it. *)
Inductive body_outcome : Type :=
| Finished (chunks : list nat) (content : node)
| Failed (chunks : list nat) (partial : string) (e : error).

Record Response : Type := {
  ok : bool;
  text : string;
  content_length : option nat;
  body : body_outcome
}.

Inductive fetch_outcome : Type :=
| Rejected (e : error)
| Responded (r : Response).

(** What the fetcher does to the outside, in the order it does it. *)
Inductive event : Type :=
| Progress (p : ProgressUpdate)
| ShowInputBox (title : string)
| ShowQuickPick (items : list QuickPickItem)
| GetOctokit
| ListCodeqlDatabases (owner repo : option string)
| OctokitAuth
| Fetch (url : string) (headers : list (string * string))
| DatabaseUnbundle (zipFile unzipPath : path)
| OpenDatabase (dbPath : path)
| Execute (command : string)
| Information (text : string)
| Log (text : string).

(** ** The host

    Everything the fetcher obtains from the editor, the configuration, the
    network and the other modules of the extension. *)
Record Host : Type := {
  (** [Uri.parse(value, strict)]; [None] when it throws *)
  Uri_parse : bool -> string -> option Uri;
  (** [Uri.file(p).toString(true)] *)
  Uri_file_toString : path -> string;
  (** configuration *)
  allowHttp : bool;
  isCanary : bool;
  addDatabaseSourceToWorkspace : bool;
  (** [tmpDir.name] and [Date.now()] *)
  tmpDir : path;
  Date_now : N;
  (** user interface *)
  showInputBox : string -> option string;
  showQuickPick : list QuickPickItem -> option QuickPickItem;
  getLanguageDisplayName : string -> string;
  localeCompare : string -> string -> comparison;
  (** GitHub *)
  getNwoFromGitHubUrl : string -> option string;
  isValidGitHubNwo : string -> bool;
  listCodeqlDatabases : option string -> option string -> result (list CodeqlDatabase);
  octokit_token : option string;
  (** network and disk *)
  fetch : string -> list (string * string) -> fetch_outcome;
  (** [obj.error || obj.message || obj.reason || JSON.stringify(obj, null, 2)]
      of [JSON.parse(text)]; [None] when the text is not JSON *)
  JSON_reason : string -> option string;
  (** the message of the CLI when it cannot unbundle an archive *)
  unbundle_failure : string;
  (** paths whose deletion is refused by the operating system *)
  remove_refused : path -> bool;
  (** [databaseManager.openDatabase] *)
  openDatabase : path -> DatabaseOrigin -> bool -> option string -> bool ->
                 result DatabaseItem
}.

(** ** State and errors

    A computation reads and writes the file system, appends to the record of
    events, and returns or throws. *)
Record world : Type := {
  fs : node;
  events : list event
}.

Definition M (A : Type) : Type := world -> result A * world.

Definition ret {A} (a : A) : M A := fun w => (Ok a, w).

Definition throw {A} (e : error) : M A := fun w => (Throw e, w).

Definition bind {A B} (m : M A) (k : A -> M B) : M B :=
  fun w =>
    match m w with
    | (Ok a, w') => k a w'
    | (Throw e, w') => (Throw e, w')
    end.

(** [try { m } catch (e) { handler e }] *)
Definition try_catch {A} (m : M A) (handler : error -> M A) : M A :=
  fun w =>
    match m w with
    | (Ok a, w') => (Ok a, w')
    | (Throw e, w') => handler e w'
    end.

(** [void m]: start [m] and ignore how it ends. *)
Definition fire_and_forget {A} (m : M A) : M unit :=
  fun w => (Ok tt, snd (m w)).

Definition lift {A} (r : result A) : M A := fun w => (r, w).

Definition emit (e : event) : M unit :=
  fun w => (Ok tt, {| fs := fs w; events := events w ++ [e] |}).

Definition read_fs : M node := fun w => (Ok (fs w), w).

Definition set_fs (root : node) : M unit :=
  fun w => (Ok tt, {| fs := root; events := events w |}).

Declare Scope fetcher_scope.
Delimit Scope fetcher_scope with fetcher.
Notation "x <- m ;; k" := (bind m (fun x => k))
  (at level 100, m at next level, right associativity) : fetcher_scope.
Notation "m ;; k" := (bind m (fun _ => k))
  (at level 100, right associativity) : fetcher_scope.
Open Scope fetcher_scope.

(** The progress reports among the events, in order. *)
Fixpoint progress_reports (es : list event) : list ProgressUpdate :=
  match es with
  | [] => []
  | Progress p :: rest => p :: progress_reports rest
  | _ :: rest => progress_reports rest
  end.

(** A computation only ever adds to the record of events. *)
Definition grows {A} (m : M A) : Prop :=
  forall w, exists more, events (snd (m w)) = events w ++ more.

(** ** Destination folder: the loop of [getStorageFolder]

    [counter] and [folderName] are the loop's variables; [exists_] is
    [pathExists] on the file system of the moment.  The loop ends because
    the counter grows and passing 100 throws. *)
Definition attempts_left (counter : nat) : nat := 101 - counter.
Opaque attempts_left.

Equations? avoid_existing (exists_ : path -> bool) (realpath : path)
  (lastName : string) (counter : nat) (folderName : path)
  : result path by wf (attempts_left counter) lt :=
  avoid_existing exists_ realpath lastName counter folderName :=
    if exists_ folderName then
      match gt_dec (S counter) 100 with
      | left _ =>
          Throw (Error "Could not find a unique name for downloaded database.")
      | right _ =>
          avoid_existing exists_ realpath lastName (S counter)
            (join realpath (lastName +++ "-" +++ string_of_nat (S counter)))
      end
    else Ok folderName.
Proof. with_strategy transparent [attempts_left] (unfold attempts_left). lia. Qed.
Transparent attempts_left.

(** The folder name before disambiguation: the base name cut to 250
    characters, then without a [.zip] ending. *)
Definition folder_base (urlPath : string) : string :=
  let lastName := substring 0 250 (basename urlPath) in
  if endsWith lastName ".zip"
  then substring 0 (String.length lastName - 4) lastName
  else lastName.

(** The names the loop tries, in order: the base itself, then the base with
    [-1], [-2], ... *)
Definition candidate (realpath : path) (lastName : string) (k : nat) : path :=
  match k with
  | 0 => join realpath lastName
  | S _ => join realpath (lastName +++ "-" +++ string_of_nat k)
  end.

Section Fetcher.

Variable h : Host.

(** *** Host calls as computations *)

Definition parse_uri (strict : bool) (value : string) : M Uri :=
  match Uri_parse h strict value with
  | Some u => ret u
  | None => throw (Error ("[UriError]: cannot parse " +++ value))
  end.

Definition progress (p : ProgressUpdate) : M unit := emit (Progress p).

Definition write_file (p : path) (v : node) : M unit :=
  fun w =>
    match write (fs w) p v with
    | Some root => (Ok tt, {| fs := root; events := events w |})
    | None => (Throw (Error "ENOENT: no such file or directory"), w)
    end.

Definition fs_remove (p : path) : M unit :=
  fun w =>
    if remove_refused h p
    then (Throw (Error "EPERM: operation not permitted"), w)
    else (Ok tt, {| fs := remove (fs w) p; events := events w |}).

Definition fs_pathExists (p : path) : M bool :=
  fun w => (Ok (pathExists (fs w) p), w).

Definition ensureDir (p : path) : M unit :=
  fun w =>
    match mkdirp (fs w) p with
    | Some root => (Ok tt, {| fs := root; events := events w |})
    | None => (Throw (Error "ENOTDIR: not a directory"), w)
    end.

(** No symbolic links in the tree: [realpath] is the path itself, and throws
    when nothing is there. *)
Definition fs_realpath (p : path) : M path :=
  fun w =>
    if pathExists (fs w) p then (Ok p, w)
    else (Throw (Error "ENOENT: no such file or directory"), w).

(** [zip(src, dst)] of zip-a-folder. *)
Definition zip (src dst : path) : M unit :=
  root <- read_fs ;;
  match lookup root src with
  | Some n => write_file dst (Zip n)
  | None => throw (Error "ENOENT: no such file or directory")
  end.

(** [cli.databaseUnbundle(zipFile, unzipPath)]: the tree inside the archive
    appears at [unzipPath]. *)
Definition databaseUnbundle (zipFile unzipPath : path) : M unit :=
  emit (DatabaseUnbundle zipFile unzipPath) ;;
  root <- read_fs ;;
  match lookup root zipFile with
  | Some (Zip image) => write_file unzipPath image
  | _ => throw (Error (unbundle_failure h))
  end.

(** *** [validateUrl] *)
Definition validateUrl (databaseUrl : string) : result unit :=
  match Uri_parse h true databaseUrl with
  | None => Throw (Error ("Invalid url: " +++ databaseUrl))
  | Some uri =>
      if negb (allowHttp h) && negb (scheme uri =? "https")
      then Throw (Error "Must use https for downloading a database.")
      else Ok tt
  end.

(** *** [isFile] *)
Definition isFile (databaseUrl : string) : M bool :=
  u <- parse_uri false databaseUrl ;;
  ret (scheme u =? "file").

(** *** [getStorageFolder] *)
Definition getStorageFolder (storagePath urlStr : string) : M path :=
  url <- parse_uri false urlStr ;;
  let lastName := folder_base (uri_path url) in
  realpath <- fs_realpath (resolve storagePath) ;;
  let folderName := join realpath lastName in
  root <- read_fs ;;
  lift (avoid_existing (pathExists root) realpath lastName 0 folderName).

(** *** [readAndUnzip] *)
Definition readAndUnzip (zipUrl : string) (unzipPath : path) : M unit :=
  u <- parse_uri false zipUrl ;;
  let zipFile := resolve (fsPath u) in
  progress {| maxStep := 10; step := 9;
              message := "Unzipping into " +++ basename_of unzipPath |} ;;
  databaseUnbundle zipFile unzipPath.

(** *** [checkForFailingResponse] *)
Definition checkForFailingResponse (response : Response) (errorMessage : string)
  : M Response :=
  if ok response then ret response
  else
    let msg := match JSON_reason h (text response) with
               | Some m => m
               | None => text response
               end in
    throw (Error (errorMessage +++ "." +++ newline +++ newline +++ "Reason: " +++ msg)).

(** *** [reportStreamProgress]

    Modelled from the spec: [reportStreamProgress] lives in
    [common/vscode/progress.ts], which is not among the sources.  The
    transport "reports byte-granularity progress if the server supplies a
    content-length": one report per chunk received, carrying the bytes
    received so far out of the announced total. *)
Fixpoint stream_reports (messagePrefix : string) (totalNumBytes downloaded : nat)
  (chunks : list nat) : list ProgressUpdate :=
  match chunks with
  | [] => []
  | size :: rest =>
      {| message := messagePrefix; step := downloaded + size;
         maxStep := totalNumBytes |}
      :: stream_reports messagePrefix totalNumBytes (downloaded + size) rest
  end.

Fixpoint progress_all (ps : list ProgressUpdate) : M unit :=
  match ps with
  | [] => ret tt
  | p :: rest => progress p ;; progress_all rest
  end.

Definition reportStreamProgress (chunks : list nat) (messagePrefix : string)
  (totalNumBytes : option nat) : M unit :=
  match totalNumBytes with
  | Some total => progress_all (stream_reports messagePrefix total 0 chunks)
  | None => ret tt
  end.

(** *** [fetchAndUnzip] *)

(** The body of the response piped into the archive file. *)
Definition pipe_body (response : Response) (archivePath : path) : M unit :=
  match body response with
  | Finished chunks content =>
      reportStreamProgress chunks "Downloading database" (content_length response) ;;
      write_file archivePath content
  | Failed chunks partial e =>
      reportStreamProgress chunks "Downloading database" (content_length response) ;;
      try_catch (write_file archivePath (File partial)) (fun _ => ret tt) ;;
      throw e
  end.

(** [join(tmpDir.name, `archive-${Date.now()}.zip`)] *)
Definition temporary_archive : path :=
  join (tmpDir h)
    ("archive-" +++ NilEmpty.string_of_uint (N.to_uint (Date_now h)) +++ ".zip").

Definition fetchAndUnzip (databaseUrl : string)
  (requestHeaders : list (string * string)) (unzipPath : path) : M unit :=
  let archivePath := temporary_archive in
  progress {| maxStep := 3; message := "Downloading database"; step := 1 |} ;;
  response <-
    try_catch
      (emit (Fetch databaseUrl requestHeaders) ;;
       match fetch h databaseUrl requestHeaders with
       | Rejected e => throw e
       | Responded r => checkForFailingResponse r "Error downloading database"
       end)
      (fun e =>
         match e with
         | AbortError _ => throw (AbortError "The request timed out.")
         | _ => throw e
         end) ;;
  try_catch (pipe_body response archivePath)
    (fun e =>
       (* Close and remove the file if an error occurs *)
       fire_and_forget (fs_remove archivePath) ;;
       match e with
       | AbortError _ => throw (AbortError "The download timed out.")
       | _ => throw e
       end) ;;
  readAndUnzip (Uri_file_toString h archivePath) unzipPath ;;
  (* remove archivePath eagerly since these archives can be large. *)
  fs_remove archivePath.

(** *** [findDirWithFile] at a path of the file system: [stat] throws when
    nothing is there. *)
Definition findDirWithFile_at (dir : path) (toFind : list string)
  : M (option path) :=
  root <- read_fs ;;
  match lookup root dir with
  | Some n => ret (findDirWithFile dir n toFind)
  | None => throw (Error "ENOENT: no such file or directory")
  end.

(** *** SourceArchiveNormalizer: [ensureZippedSourceLocation] *)
Definition ensureZippedSourceLocation (databasePath : path) : M unit :=
  let srcFolderPath := join databasePath "src" in
  let srcZipPath := add_ext srcFolderPath ".zip" in
  srcExists <- fs_pathExists srcFolderPath ;;
  missingZip <- (if srcExists
                 then zipExists <- fs_pathExists srcZipPath ;; ret (negb zipExists)
                 else ret false) ;;
  if missingZip
  then zip srcFolderPath srcZipPath ;; fs_remove srcFolderPath
  else ret tt.

(** *** [databaseArchiveFetcher]

    The function in its two halves: up to the end of the unpacking, and from
    the report "Opening database" on. *)
Definition acquire_and_unpack (databaseUrl : string)
  (requestHeaders : list (string * string)) (storagePath : string) : M path :=
  progress {| message := "Getting database"; step := 1; maxStep := 4 |} ;;
  (if storagePath =? "" then throw (Error "No storage path specified.")
   else ret tt) ;;
  ensureDir (resolve storagePath) ;;
  unzipPath <- getStorageFolder storagePath databaseUrl ;;
  local <- isFile databaseUrl ;;
  (if local then readAndUnzip databaseUrl unzipPath
   else fetchAndUnzip databaseUrl requestHeaders unzipPath) ;;
  ret unzipPath.

Definition locate_normalize_register (unzipPath : path)
  (nameOverride : option string) (origin : DatabaseOrigin)
  (makeSelected addSourceArchiveFolder : bool) : M DatabaseItem :=
  progress {| message := "Opening database"; step := 3; maxStep := 4 |} ;;
  (* find the path to the database. The actual database might be in a sub-folder *)
  dbPath <- findDirWithFile_at unzipPath [".dbinfo"; "codeql-database.yml"] ;;
  match dbPath with
  | Some dbPath =>
      progress {| message := "Validating and fixing source location";
                  step := 4; maxStep := 4 |} ;;
      ensureZippedSourceLocation dbPath ;;
      emit (OpenDatabase dbPath) ;;
      lift (openDatabase h dbPath origin makeSelected nameOverride
              addSourceArchiveFolder)
  | None => throw (Error "Database not found in archive.")
  end.

Definition databaseArchiveFetcher (databaseUrl : string)
  (requestHeaders : list (string * string)) (storagePath : string)
  (nameOverride : option string) (origin : DatabaseOrigin)
  (makeSelected addSourceArchiveFolder : bool) : M DatabaseItem :=
  unzipPath <- acquire_and_unpack databaseUrl requestHeaders storagePath ;;
  locate_normalize_register unzipPath nameOverride origin makeSelected
    addSourceArchiveFolder.

(** *** GitHubDatabaseResolver: [promptForLanguage] *)

(** [items.sort((a, b) => a.label.localeCompare(b.label))]: a stable sort. *)
Fixpoint insert_item (x : QuickPickItem) (sorted : list QuickPickItem)
  : list QuickPickItem :=
  match sorted with
  | [] => [x]
  | y :: rest =>
      match localeCompare h (label x) (label y) with
      | Gt => y :: insert_item x rest
      | _ => x :: y :: rest
      end
  end.

Definition sort_items (items : list QuickPickItem) : list QuickPickItem :=
  fold_right insert_item [] items.

(** The entries of the picker, before sorting. *)
Definition language_item (language : string) : QuickPickItem :=
  {| label := getLanguageDisplayName h language;
     description := language;
     language := language |}.

Definition promptForLanguage (languages : list string) : M (option string) :=
  progress {| message := "Choose language"; step := 2; maxStep := 2 |} ;;
  match languages with
  | [] => throw (Error "No databases found")
  | [only] => ret (Some only)
  | _ =>
      let items := sort_items (map language_item languages) in
      emit (ShowQuickPick items) ;;
      match showQuickPick h items with
      | None => ret None
      | Some selectedItem => ret (Some (language selectedItem))
      end
  end.

(** *** [convertGithubNwoToDatabaseUrl] *)

Record GithubDatabase : Type := {
  databaseUrl : string;
  owner : option string;
  name : option string;
  databaseId : nat;
  databaseCreatedAt : string;
  commitOid : option string
}.

(** The text of an optional string that is known to be defined. *)
Definition text_of (s : option string) : string :=
  match s with Some s => s | None => "undefined" end.

(** The object that [convertGithubNwoToDatabaseUrl] returns for an entry of
    the listing. *)
Definition selected_database (owner repo : option string)
  (databaseForLanguage : CodeqlDatabase) : GithubDatabase :=
  {| databaseUrl := db_url databaseForLanguage;
     owner := owner;
     name := repo;
     databaseId := db_id databaseForLanguage;
     databaseCreatedAt := db_created_at databaseForLanguage;
     commitOid := db_commit_oid databaseForLanguage |}.

(** From [response.data.find] to the end of the [try] block. *)
Definition database_for (response : list CodeqlDatabase) (owner repo : option string)
  (language : string) : M (option GithubDatabase) :=
  match find (fun db => db_language db =? language) response with
  | None => throw (Error ("No database found for language '" +++ language +++ "'"))
  | Some databaseForLanguage =>
      ret (Some (selected_database owner repo databaseForLanguage))
  end.

Definition convertGithubNwoToDatabaseUrl (nwo : string) (language : option string)
  : M (option GithubDatabase) :=
  try_catch
    (let parts := segments nwo in
     let owner := nth_error parts 0 in
     let repo := nth_error parts 1 in
     emit (ListCodeqlDatabases owner repo) ;;
     response <- lift (listCodeqlDatabases h owner repo) ;;
     let languages := map db_language response in
     if falsy language || negb (includes languages (text_of language))
     then
       language <- promptForLanguage languages ;;
       if falsy language then ret None
       else database_for response owner repo (text_of language)
     else database_for response owner repo (text_of language))
    (fun e =>
       emit (Log ("Error: " +++ getErrorMessage e)) ;;
       throw (Error ("Unable to get database for '" +++ nwo +++ "'"))).

(** *** [downloadGitHubDatabaseFromUrl] *)
Definition downloadGitHubDatabaseFromUrl (databaseUrl : string) (databaseId : nat)
  (databaseCreatedAt : string) (commitOid : option string) (owner name : string)
  (storagePath : string) (makeSelected addSourceArchiveFolder : bool)
  : M (option DatabaseItem) :=
  emit OctokitAuth ;;
  let octokitToken := octokit_token h in
  item <- databaseArchiveFetcher databaseUrl
            [("Accept", "application/zip");
             ("Authorization",
              if falsy octokitToken then "" else "Bearer " +++ text_of octokitToken)]
            storagePath
            (Some (owner +++ "/" +++ name))
            (OriginGithub (owner +++ "/" +++ name) databaseId databaseCreatedAt
               commitOid)
            makeSelected addSourceArchiveFolder ;;
  ret (Some item).

(** *** [downloadGitHubDatabase] *)
Definition downloadGitHubDatabase (githubRepo : string) (storagePath : string)
  (language : option string) (makeSelected addSourceArchiveFolder : bool)
  : M (option DatabaseItem) :=
  let nwo := if falsy (getNwoFromGitHubUrl h githubRepo) then githubRepo
             else text_of (getNwoFromGitHubUrl h githubRepo) in
  if negb (isValidGitHubNwo h nwo)
  then throw (Error ("Invalid GitHub repository: " +++ githubRepo))
  else
    (if isCanary h then emit GetOctokit else ret tt) ;;
    result <- convertGithubNwoToDatabaseUrl nwo language ;;
    match result with
    | None => ret None
    | Some r =>
        downloadGitHubDatabaseFromUrl (databaseUrl r) (databaseId r)
          (databaseCreatedAt r) (commitOid r) (text_of (owner r))
          (text_of (name r)) storagePath makeSelected addSourceArchiveFolder
    end.

(** *** [askForGitHubRepo] and [promptImportGithubDatabase] *)
Definition askForGitHubRepo : M (option string) :=
  progress {| message := "Choose repository"; step := 1; maxStep := 2 |} ;;
  let title :=
    "Enter a GitHub repository URL or " +++ quote +++ "name with owner" +++ quote
    +++ " (e.g. https://github.com/github/codeql or github/codeql)" in
  emit (ShowInputBox title) ;;
  ret (showInputBox h title).

Definition showAndLogInformationMessage (text : string) : M unit :=
  emit (Information text).

Definition promptImportGithubDatabase (storagePath : string)
  (language : option string) (makeSelected addSourceArchiveFolder : bool)
  : M (option DatabaseItem) :=
  githubRepo <- askForGitHubRepo ;;
  if falsy githubRepo then ret None
  else
    databaseItem <- downloadGitHubDatabase (text_of githubRepo) storagePath
                      language makeSelected addSourceArchiveFolder ;;
    match databaseItem with
    | Some item =>
        (if makeSelected then emit (Execute "codeQLDatabases.focus") else ret tt) ;;
        showAndLogInformationMessage "Database downloaded and imported successfully." ;;
        ret (Some item)
    | None => ret None
    end.

(** *** [promptImportInternetDatabase] *)
Definition promptImportInternetDatabase (storagePath : string)
  : M (option DatabaseItem) :=
  let prompt := "Enter URL of zipfile of database to download" in
  emit (ShowInputBox prompt) ;;
  let databaseUrl := showInputBox h prompt in
  if falsy databaseUrl then ret None
  else
    lift (validateUrl (text_of databaseUrl)) ;;
    item <- databaseArchiveFetcher (text_of databaseUrl) [] storagePath None
              (OriginUrl (text_of databaseUrl)) true
              (addDatabaseSourceToWorkspace h) ;;
    emit (Execute "codeQLDatabases.focus") ;;
    showAndLogInformationMessage "Database downloaded and imported successfully." ;;
    ret (Some item).

(** *** [importArchiveDatabase] *)
Definition importArchiveDatabase (databaseUrl : string) (storagePath : string)
  : M (option DatabaseItem) :=
  try_catch
    (item <- databaseArchiveFetcher databaseUrl [] storagePath None
               (OriginArchive databaseUrl) true
               (addDatabaseSourceToWorkspace h) ;;
     emit (Execute "codeQLDatabases.focus") ;;
     showAndLogInformationMessage "Database unzipped and imported successfully." ;;
     ret (Some item))
    (fun e =>
       if str_includes (getErrorMessage e) "unexpected end of file"
       then throw (Error "Database is corrupt or too large. Try unzipping outside of VS Code and importing the unzipped folder instead.")
       else throw e).

End Fetcher.

(** ** A concrete host

    A reading of [Uri.parse] that is enough for the addresses used in the
    examples: scheme, authority and path are split as vscode's regular
    expression splits them; a missing scheme throws in strict mode and is
    [file] otherwise; a path that starts with two slashes without an
    authority throws.  Percent-decoding and the check of the scheme's
    characters are left out. *)
Module Demo.

Definition is_stop (stops : string) (c : ascii) : bool :=
  existsb (Ascii.eqb c) (list_ascii_of_string stops).

(** The longest prefix without a stop character, and what follows it. *)
Fixpoint span_until (stops : string) (s : string) : string * string :=
  match s with
  | EmptyString => (EmptyString, EmptyString)
  | String c s' =>
      if is_stop stops c then (EmptyString, s)
      else let (a, b) := span_until stops s' in (String c a, b)
  end.

Definition split_scheme (value : string) : string * string :=
  let (pre, rest) := span_until ":/?#" value in
  match rest with
  | String c r =>
      if Ascii.eqb c ":"%char && negb (pre =? "") then (pre, r) else ("", value)
  | EmptyString => ("", value)
  end.

Definition split_authority (rest : string) : string * string :=
  if prefix "//" rest
  then span_until "/?#" (substring 2 (String.length rest - 2) rest)
  else ("", rest).

Definition referenceResolution (scheme path : string) : string :=
  if (scheme =? "https") || (scheme =? "http") || (scheme =? "file")
  then if path =? "" then "/"
       else if prefix "/" path then path else "/" +++ path
  else path.

Definition parse (strict : bool) (value : string) : option Uri :=
  let (scheme0, rest) := split_scheme value in
  let (authority, rest) := split_authority rest in
  let path := fst (span_until "?#" rest) in
  if strict && (scheme0 =? "") then None
  else
    let scheme := if scheme0 =? "" then "file" else scheme0 in
    let path := referenceResolution scheme path in
    if (authority =? "") && prefix "//" path then None
    else Some {| scheme := scheme; authority := authority; uri_path := path |}.

Definition file_url (p : path) : string :=
  "file://" +++ match p with
                | [] => "/"
                | _ => concat "" (map (fun c => "/" +++ c) p)
                end.

(** A host with the editor's defaults; what varies between the examples is
    given as arguments. *)
Definition host (allow : bool) (input : option string)
  (pick : list QuickPickItem -> option QuickPickItem)
  (listing : result (list CodeqlDatabase)) (answer : fetch_outcome)
  (refused : path -> bool) : Host :=
  {| Uri_parse := parse;
     Uri_file_toString := file_url;
     allowHttp := allow;
     isCanary := false;
     addDatabaseSourceToWorkspace := true;
     tmpDir := ["tmp"];
     Date_now := 1700000000000%N;
     showInputBox := fun _ => input;
     showQuickPick := pick;
     getLanguageDisplayName := fun l => l;
     localeCompare := String.compare;
     getNwoFromGitHubUrl := fun _ => None;
     isValidGitHubNwo := fun s => (List.length (segments s) =? 2)%nat;
     listCodeqlDatabases := fun _ _ => listing;
     octokit_token := None;
     fetch := fun _ _ => answer;
     JSON_reason := fun _ => None;
     unbundle_failure := "unexpected end of file";
     remove_refused := refused;
     openDatabase := fun dbPath origin _ nameOverride _ =>
                       Ok {| databaseUri := dbPath; item_origin := origin;
                             item_name := nameOverride |} |}.

(** A host that is never asked anything but to read a local archive. *)
Definition offline : Host :=
  host false None (fun _ => None) (Ok []) (Rejected (Error "offline"))
    (fun _ => false).

Definition empty_world (root : node) : world := {| fs := root; events := [] |}.

End Demo.

(** ** Sample data for the examples *)

(** The tree of the spec's scenario, with a decoy beside the database. *)
Definition sample_unpacked : node :=
  Dir [("README", File "notes");
       ("docs", Dir [("index.html", File "<html>")]);
       ("nested", Dir [("codeql-database.yml", File "name: db");
                       ("src", Dir [("a.c", File "int main;")])]);
       ("later", Dir [])].

(** A storage root that holds [db], [db-1], ..., up to [count] folders. *)
Definition taken_names (count : nat) : list (string * node) :=
  map (fun k => (match k with
                 | 0 => "db"
                 | S _ => "db-" +++ string_of_nat k
                 end, Dir [])) (seq 0 count).

Definition crowded_storage (count : nat) : node :=
  Dir [("tmp", Dir []); ("storage", Dir (taken_names count))].

(** A database that ships both a loose [src] folder and a [src.zip]. *)
Definition database_with_both : node :=
  Dir [(".dbinfo", File "dbinfo");
       ("src", Dir [("a.c", File "int main;")]);
       ("src.zip", Zip (Dir [("a.c", File "int main;")]))].

(** A disk with a local archive in [/tmp] and an empty storage folder. *)
Definition disk_with_archive (db : node) : node :=
  Dir [("tmp", Dir [("db.zip", Zip db)]); ("storage", Dir [])].

(** A server that answers every request with a well-formed database. *)
Definition serving : fetch_outcome :=
  Responded {| ok := true; text := ""; content_length := None;
               body := Finished [] (Zip sample_unpacked) |}.

(** A host behind which insecure transport is disallowed. *)
Definition strict_host : Host :=
  Demo.host false (Some "http://example.com/db.zip") (fun _ => None) (Ok [])
    serving (fun _ => false).

Definition empty_disk : node := Dir [("tmp", Dir []); ("storage", Dir [])].

Definition python_db : CodeqlDatabase :=
  {| db_language := "python"; db_url := "https://api.github.com/repos/o/r/code-scanning/codeql/databases/python";
     db_id := 1; db_created_at := "2024-01-01T00:00:00Z"; db_commit_oid := Some "abc" |}.

Definition java_db : CodeqlDatabase :=
  {| db_language := "java"; db_url := "https://api.github.com/repos/o/r/code-scanning/codeql/databases/java";
     db_id := 2; db_created_at := "2024-01-02T00:00:00Z"; db_commit_oid := None |}.

(** A host whose repository lists the given databases and whose user answers
    the picker as given. *)
Definition github_host (listing : list CodeqlDatabase)
  (pick : list QuickPickItem -> option QuickPickItem) : Host :=
  Demo.host false None pick (Ok listing) serving (fun _ => false).

(** A server whose answer is not a zip archive. *)
Definition serving_garbage : fetch_outcome :=
  Responded {| ok := true; text := ""; content_length := None;
               body := Finished [] (File "<html>not a zip</html>") |}.

Definition garbage_host : Host :=
  Demo.host false None (fun _ => None) (Ok []) serving_garbage (fun _ => false).

(** A host on which no file can be deleted. *)
Definition undeletable_host : Host :=
  Demo.host false None (fun _ => None) (Ok []) serving (fun _ => true).

(** A server that breaks off in the middle of the body. *)
Definition breaking_host (refused : path -> bool) : Host :=
  Demo.host false None (fun _ => None) (Ok [])
    (Responded {| ok := true; text := ""; content_length := Some 10;
                  body := Failed [4] "PK.." (AbortError "The operation was aborted.") |})
    refused.

(** ** Further notions used in the properties below *)

From Stdlib Require Import Permutation Sorted.

(** A name that [readdir] can return: not empty, not ["."], not [".."]. *)
Definition plain_name (c : string) : bool :=
  negb ((c =? "") || (c =? ".") || (c =? "..")).

(** No name occurs twice. *)
Fixpoint distinct (names : list string) : bool :=
  match names with
  | [] => true
  | c :: rest => negb (existsb (String.eqb c) rest) && distinct rest
  end.

(** A tree as a file system presents it: in every directory the names are
    plain and distinct. *)
Fixpoint well_listed (n : node) : bool :=
  match n with
  | Dir entries =>
      forallb (fun e => plain_name (fst e)) entries
      && distinct (map fst entries)
      && forallb (fun e => well_listed (snd e)) entries
  | _ => true
  end.

(** Two paths part ways: after a common beginning, each goes on with a
    different name.  Neither is then above, at or below the other. *)
Definition diverge (p q : path) : Prop :=
  exists common a b r1 r2,
    p = common ++ a :: r1 /\ q = common ++ b :: r2 /\ a <> b.

(** From world [w] to world [w'] the record of events has only grown, and
    by events that satisfy [P]. *)
Definition adds_only (P : event -> Prop) (w w' : world) : Prop :=
  exists more, events w' = events w ++ more /\ Forall P more.

(** The same, with the file system left as it was. *)
Definition adds_only_keeping_files (P : event -> Prop) (w w' : world) : Prop :=
  fs w' = fs w /\ adds_only P w w'.

(** A computation run from [w] ends in a world related to [w]. *)
Definition ends_within {A} (R : world -> world -> Prop) (m : M A) (w : world)
  : Prop :=
  R w (snd (m w)).

(** An event that is not a download, or is the download of [url] with
    [headers]. *)
Definition fetches_only (url : string) (headers : list (string * string))
  (e : event) : Prop :=
  match e with
  | Fetch url' headers' => url' = url /\ headers' = headers
  | _ => True
  end.

(** An event that contacts neither the network nor GitHub. *)
Definition offline_event (e : event) : Prop :=
  match e with
  | Fetch _ _ | ListCodeqlDatabases _ _ | GetOctokit | OctokitAuth => False
  | _ => True
  end.

(** An event that downloads nothing and opens no database. *)
Definition resolving_event (e : event) : Prop :=
  match e with
  | Fetch _ _ | DatabaseUnbundle _ _ | OpenDatabase _ => False
  | _ => True
  end.

(** An event of asking and reporting: the request for the listing, a
    progress report, the picker, a line of the log. *)
Definition asking_event (e : event) : Prop :=
  match e with
  | ListCodeqlDatabases _ _ | Progress _ | ShowQuickPick _ | Log _ => True
  | _ => False
  end.


(** The picker's order: the first label does not come after the second. *)
Definition in_label_order (h : Host) (a b : QuickPickItem) : Prop :=
  localeCompare h (label a) (label b) <> Gt.

(** A user who takes the first item of whatever list is shown. *)
Definition pick_first (items : list QuickPickItem) : option QuickPickItem :=
  hd_error items.

(** ** [common/qlpack-language.ts]

    The part of a [QlPackFile] that is read, with the dependencies as the
    list of their keys and values.  The values of the enum [QueryLanguage],
    whose file is not among the sources, are a parameter. *)
Record QlPackFile : Type := {
  dependencies : option (list (string * string))
}.

(** [key in dependencies] *)
Definition has_key (key : string) (object : list (string * string)) : bool :=
  existsb (fun entry => fst entry =? key) object.

Definition getQlPackLanguageFromQlPackFile (QueryLanguage : list string)
  (qlPack : option QlPackFile) : option string :=
  match qlPack with
  | None => None
  | Some qlPack =>
      match dependencies qlPack with
      | None => None
      | Some dependencies =>
          let matchingLanguages :=
            filter (fun language =>
                      has_key ("codeql/" +++ language +++ "-all") dependencies)
              QueryLanguage in
          match matchingLanguages with
          | [language] => Some language
          | _ => None
          end
      end
  end.

(** A text without a slash. *)
Fixpoint no_slash (s : string) : bool :=
  match s with
  | EmptyString => true
  | String c rest => negb (Ascii.eqb c slash) && no_slash rest
  end.
(** Nested induction: every entry of a directory satisfies the predicate. *)
Lemma node_nested_ind (P : node -> Prop)
  (HFile : forall b, P (File b))
  (HZip : forall n, P n -> P (Zip n))
  (HDir : forall es, Forall (fun e => P (snd e)) es -> P (Dir es)) :
  forall n, P n.
Proof.
  fix IH 1. intros [b | n | es].
  - apply HFile.
  - apply HZip, IH.
  - apply HDir. induction es as [| [c m] es IHes]; constructor; [apply IH | exact IHes].
Qed.

Lemma findDirWithFile_Dir dir entries toFind :
  findDirWithFile dir (Dir entries) toFind =
  if bears_marker entries toFind then Some dir
  else first_result dir toFind entries.
Proof.
  unfold bears_marker. simpl. destruct (existsb _ toFind); [reflexivity |].
  induction entries as [| [file child] rest IH]; simpl; [reflexivity |].
  destruct (findDirWithFile (join dir file) child toFind); [reflexivity | exact IH].
Qed.

Lemma marker_dirs_Dir dir entries toFind :
  marker_dirs dir (Dir entries) toFind =
  (if bears_marker entries toFind then [dir] else []) ++
  marker_dirs_below dir toFind entries.
Proof.
  simpl. f_equal.
  induction entries as [| [file child] rest IH]; simpl; [reflexivity |].
  now rewrite IH.
Qed.

(** The locator returns the first marker-bearing directory in pre-order. *)
Lemma findDirWithFile_head toFind n :
  forall dir, findDirWithFile dir n toFind = hd_error (marker_dirs dir n toFind).
Proof.
  induction n as [b | n _ | es IH] using node_nested_ind; intro dir;
    try reflexivity.
  rewrite findDirWithFile_Dir, marker_dirs_Dir.
  destruct (bears_marker es toFind); [reflexivity |]. simpl.
  induction IH as [| [file child] rest Hhd _ IHrest]; simpl; [reflexivity |].
  simpl in Hhd. rewrite Hhd, IHrest.
  destruct (marker_dirs (join dir file) child toFind); reflexivity.
Qed.

(** ** Facts about the file system *)

Lemma assoc_put_same c m es : assoc c (put c m es) = Some m.
Proof.
  induction es as [| [c' m'] rest IH]; simpl.
  - now rewrite String.eqb_refl.
  - destruct (c =? c') eqn:E; simpl; rewrite ?String.eqb_refl, ?E; auto.
Qed.

Lemma assoc_put_other c c' m es :
  c' <> c -> assoc c' (put c m es) = assoc c' es.
Proof.
  intro Hne. apply String.eqb_neq in Hne.
  induction es as [| [c0 m0] rest IH]; simpl.
  - now rewrite Hne.
  - destruct (c =? c0) eqn:E; simpl.
    + apply String.eqb_eq in E. subst c0. now rewrite Hne.
    + now rewrite IH.
Qed.

Lemma assoc_del_same c es : assoc c (del c es) = None.
Proof.
  induction es as [| [c' m'] rest IH]; simpl; [reflexivity |].
  destruct (c =? c') eqn:E; simpl; rewrite ?E; auto.
Qed.

Lemma assoc_del_other c c' es :
  c' <> c -> assoc c' (del c es) = assoc c' es.
Proof.
  intro Hne. apply String.eqb_neq in Hne.
  induction es as [| [c0 m0] rest IH]; simpl; [reflexivity |].
  destruct (c =? c0) eqn:E; simpl.
  - apply String.eqb_eq in E. subst c0. now rewrite Hne.
  - now rewrite IH.
Qed.

Lemma write_step es x d c v :
  write (Dir es) (x :: d ++ [c]) v =
  match assoc x es with
  | Some m => match write m (d ++ [c]) v with
              | Some m' => Some (Dir (put x m' es))
              | None => None
              end
  | None => None
  end.
Proof.
  simpl. destruct (d ++ [c]) eqn:E; [| reflexivity].
  now apply app_eq_nil in E.
Qed.

Lemma remove_step es x d c :
  remove (Dir es) (x :: d ++ [c]) =
  match assoc x es with
  | Some m => Dir (put x (remove m (d ++ [c])) es)
  | None => Dir es
  end.
Proof.
  simpl. destruct (d ++ [c]) eqn:E; [| reflexivity].
  now apply app_eq_nil in E.
Qed.

(** What was removed is no longer there. *)
Lemma lookup_remove_same d c : forall n, lookup (remove n (d ++ [c])) (d ++ [c]) = None.
Proof.
  induction d as [| x d IH]; intros [b | z | es]; try reflexivity.
  - simpl. now rewrite assoc_del_same.
  - rewrite <- app_comm_cons, remove_step.
    destruct (assoc x es) as [m |] eqn:E; simpl.
    + now rewrite assoc_put_same, IH.
    + now rewrite E.
Qed.

(** Removing an entry leaves its siblings alone. *)
Lemma lookup_remove_sibling d a b :
  a <> b -> forall n, lookup (remove n (d ++ [a])) (d ++ [b]) = lookup n (d ++ [b]).
Proof.
  intro Hne. induction d as [| x d IH]; intros [bytes | z | es]; try reflexivity.
  - simpl. rewrite assoc_del_other; auto.
  - rewrite <- !app_comm_cons, remove_step.
    destruct (assoc x es) as [m |] eqn:E; simpl.
    + now rewrite assoc_put_same, E, IH.
    + reflexivity.
Qed.

(** Beside an existing entry, a write succeeds. *)
Lemma write_beside d a b v : forall n x,
  lookup n (d ++ [a]) = Some x -> exists n', write n (d ++ [b]) v = Some n'.
Proof.
  induction d as [| y d IH]; intros [bytes | z | es] x H; simpl in H; try discriminate.
  - simpl. eauto.
  - rewrite <- app_comm_cons, write_step.
    destruct (assoc y es) as [m |]; [| discriminate].
    destruct (IH _ _ H) as [m' Hm']. rewrite Hm'. eauto.
Qed.

Lemma lookup_write_same d b v : forall n n',
  write n (d ++ [b]) v = Some n' -> lookup n' (d ++ [b]) = Some v.
Proof.
  induction d as [| y d IH]; intros [bytes | z | es] n' H; try discriminate.
  - simpl in H. injection H as <-. simpl. now rewrite assoc_put_same.
  - rewrite <- app_comm_cons, write_step in H.
    destruct (assoc y es) as [m |]; [| discriminate].
    destruct (write m (d ++ [b]) v) as [m' |] eqn:E; [| discriminate].
    injection H as <-. simpl. rewrite assoc_put_same. eauto.
Qed.

Lemma lookup_write_sibling d a b v :
  a <> b -> forall n n',
  write n (d ++ [b]) v = Some n' -> lookup n' (d ++ [a]) = lookup n (d ++ [a]).
Proof.
  intro Hne. induction d as [| y d IH]; intros [bytes | z | es] n' H; try discriminate.
  - simpl in H. injection H as <-. simpl. rewrite assoc_put_other; auto.
  - rewrite <- app_comm_cons, write_step in H.
    destruct (assoc y es) as [m |] eqn:Ey; [| discriminate].
    destruct (write m (d ++ [b]) v) as [m' |] eqn:E; [| discriminate].
    injection H as <-. simpl. rewrite assoc_put_same, Ey. eauto.
Qed.

Lemma join_plain dir segment :
  (segment =? "") = false -> (segment =? ".") = false -> (segment =? "..") = false ->
  join dir segment = dir ++ [segment].
Proof. unfold join. now intros -> -> ->. Qed.

Lemma add_ext_last p c ext : add_ext (p ++ [c]) ext = p ++ [c +++ ext].
Proof. unfold add_ext. rewrite rev_app_distr. simpl. now rewrite rev_involutive. Qed.

Lemma first_result_none dir toFind es :
  Forall (fun e => findDirWithFile (join dir (fst e)) (snd e) toFind = None) es ->
  first_result dir toFind es = None.
Proof.
  induction 1 as [| [file child] rest Hhd _ IH]; simpl; [reflexivity |].
  simpl in Hhd. now rewrite Hhd.
Qed.

Lemma first_result_skip dir toFind before e after :
  Forall (fun e => findDirWithFile (join dir (fst e)) (snd e) toFind = None) before ->
  first_result dir toFind (before ++ e :: after) =
  first_result dir toFind (e :: after).
Proof.
  induction 1 as [| [file child] rest Hhd _ IH]; [reflexivity |].
  simpl in Hhd. simpl app. cbn [first_result]. now rewrite Hhd.
Qed.

(** C1. [findDirWithFile] is a depth-first descent.  A node that is not a
    directory gives "not found" at once.  A directory one of whose immediate
    children is named exactly as a marker is returned itself, whatever lies
    below it.  Otherwise the children are searched in the order of the
    listing and the first result found is returned: the result of a child
    all of whose earlier siblings found nothing, and "not found" when every
    child found nothing.  Hence a tree with exactly one marker-bearing
    directory gives that directory, and a tree with none gives "not
    found". *)
Theorem findDirWithFile_depth_first (toFind : list string) :
  (forall dir n, is_directory n = false -> findDirWithFile dir n toFind = None) /\
  (forall dir entries,
      existsb (fun marker => existsb (String.eqb marker) (map fst entries)) toFind = true ->
      findDirWithFile dir (Dir entries) toFind = Some dir) /\
  (forall dir before file child after result,
      bears_marker (before ++ (file, child) :: after) toFind = false ->
      Forall (fun e => findDirWithFile (join dir (fst e)) (snd e) toFind = None) before ->
      findDirWithFile (join dir file) child toFind = Some result ->
      findDirWithFile dir (Dir (before ++ (file, child) :: after)) toFind = Some result) /\
  (forall dir entries,
      bears_marker entries toFind = false ->
      Forall (fun e => findDirWithFile (join dir (fst e)) (snd e) toFind = None) entries ->
      findDirWithFile dir (Dir entries) toFind = None) /\
  (forall dir n p, marker_dirs dir n toFind = [p] ->
                   findDirWithFile dir n toFind = Some p) /\
  (forall dir n, marker_dirs dir n toFind = [] ->
                 findDirWithFile dir n toFind = None).
Proof.
  repeat split.
  - intros dir [b | z | es] H; [reflexivity | reflexivity | discriminate].
  - intros dir entries H. rewrite findDirWithFile_Dir.
    unfold bears_marker, includes, readdir_names. now rewrite H.
  - intros dir before file child after result Hno Hbefore Hchild.
    rewrite findDirWithFile_Dir, Hno, first_result_skip by assumption.
    simpl. now rewrite Hchild.
  - intros dir entries Hno Hall.
    rewrite findDirWithFile_Dir, Hno. now apply first_result_none.
  - intros dir n p H. now rewrite findDirWithFile_head, H.
  - intros dir n H. now rewrite findDirWithFile_head, H.
Qed.

Lemma findDirWithFile_depth_first_witness :
  findDirWithFile ["storage"; "db"] sample_unpacked [".dbinfo"; "codeql-database.yml"]
  = Some ["storage"; "db"; "nested"]
  /\ findDirWithFile ["storage"; "db"; "README"] (File "notes")
       [".dbinfo"; "codeql-database.yml"] = None.
Proof.
  pose proof (findDirWithFile_depth_first [".dbinfo"; "codeql-database.yml"])
    as (Hfile & _ & _ & _ & Hone & _).
  split.
  - apply Hone. reflexivity.
  - apply Hfile. reflexivity.
Defined.

(** ** The destination folder *)

Lemma avoid_existing_finds exists_ realpath lastName :
  forall d c,
    c + d <= 100 ->
    (forall j, c <= j < c + d -> exists_ (candidate realpath lastName j) = true) ->
    exists_ (candidate realpath lastName (c + d)) = false ->
    avoid_existing exists_ realpath lastName c (candidate realpath lastName c)
    = Ok (candidate realpath lastName (c + d)).
Proof.
  induction d as [| d IH]; intros c Hle Hbelow Hfree.
  - rewrite Nat.add_0_r in *. rewrite avoid_existing_equation_1. now rewrite Hfree.
  - rewrite avoid_existing_equation_1, Hbelow by lia.
    destruct (gt_dec (S c) 100) as [Hgt | _]; [lia |].
    change (join realpath (lastName +++ "-" +++ string_of_nat (S c)))
      with (candidate realpath lastName (S c)).
    rewrite (IH (S c)); rewrite ?Nat.add_succ_comm; auto.
    intros j Hj. apply Hbelow. lia.
Qed.

Lemma avoid_existing_exhausted exists_ realpath lastName :
  forall d c,
    c + d = 100 ->
    (forall j, c <= j <= 100 -> exists_ (candidate realpath lastName j) = true) ->
    avoid_existing exists_ realpath lastName c (candidate realpath lastName c)
    = Throw (Error "Could not find a unique name for downloaded database.").
Proof.
  induction d as [| d IH]; intros c Hsum Hall;
    rewrite avoid_existing_equation_1, Hall by lia;
    destruct (gt_dec (S c) 100) as [Hgt | Hle]; try lia; try reflexivity.
  change (join realpath (lastName +++ "-" +++ string_of_nat (S c)))
    with (candidate realpath lastName (S c)).
  apply IH; [lia |]. intros j Hj. apply Hall. lia.
Qed.

(** C2, as the code has it.  The folder name is the archive's base name cut
    to 250 characters and then relieved of a [.zip] ending.  The name itself
    is tried first, then the name with [-1], [-2], ... up to [-100]: the
    first of these 101 names that does not exist is returned, and the
    operation fails once all 101 exist, the plain name and each of the
    hundred numbered ones. *)
Theorem getStorageFolder_least_counter (h : Host) (storagePath urlStr : string)
  (u : Uri) (w : world) :
  Uri_parse h false urlStr = Some u ->
  pathExists (fs w) (resolve storagePath) = true ->
  let realpath := resolve storagePath in
  let lastName :=
    let cut := substring 0 250 (basename (uri_path u)) in
    if endsWith cut ".zip" then substring 0 (String.length cut - 4) cut else cut in
  (forall k,
      k <= 100 ->
      (forall j, j < k -> pathExists (fs w) (candidate realpath lastName j) = true) ->
      pathExists (fs w) (candidate realpath lastName k) = false ->
      getStorageFolder h storagePath urlStr w = (Ok (candidate realpath lastName k), w))
  /\
  ((forall j, j <= 100 -> pathExists (fs w) (candidate realpath lastName j) = true) ->
   getStorageFolder h storagePath urlStr w =
   (Throw (Error "Could not find a unique name for downloaded database."), w)).
Proof.
  intros Hparse Hroot realpath lastName.
  assert (Hrun : getStorageFolder h storagePath urlStr w =
                 (avoid_existing (pathExists (fs w)) realpath lastName 0
                    (candidate realpath lastName 0), w)).
  { unfold getStorageFolder, bind, parse_uri, fs_realpath, read_fs, lift, ret.
    rewrite Hparse. unfold realpath. now rewrite Hroot. }
  split.
  - intros k Hk Hbelow Hfree. rewrite Hrun. f_equal.
    apply (avoid_existing_finds (pathExists (fs w)) realpath lastName k 0); auto.
    intros j Hj. apply Hbelow. lia.
  - intros Hall. rewrite Hrun. f_equal.
    apply (avoid_existing_exhausted (pathExists (fs w)) realpath lastName 100 0); auto.
    intros j Hj. apply Hall. lia.
Qed.

(** With [db], [db-1] and [db-2] taken, the archive [db.zip] goes to [db-3]. *)
Lemma getStorageFolder_least_counter_witness :
  getStorageFolder Demo.offline "/storage" "https://example.com/db.zip"
    (Demo.empty_world (crowded_storage 3))
  = (Ok ["storage"; "db-3"], Demo.empty_world (crowded_storage 3)).
Proof.
  refine (proj1 (getStorageFolder_least_counter Demo.offline "/storage"
                   "https://example.com/db.zip"
                   {| scheme := "https"; authority := "example.com";
                      uri_path := "/db.zip" |}
                   (Demo.empty_world (crowded_storage 3)) eq_refl eq_refl)
            3 _ _ eq_refl).
  - lia.
  - intros j Hj.
    destruct j as [| [| [| j]]]; [reflexivity | reflexivity | reflexivity | lia].
Defined.

(** C2, the claim as written fails: with [db], [db-1], ..., [db-99] taken,
    a hundred candidate names have collided, and the operation still
    succeeds, with [db-100]. *)
Lemma getStorageFolder_hundred_collisions :
  List.length (taken_names 100) = 100 /\
  forallb (fun e => pathExists (crowded_storage 100) ["storage"; fst e])
          (taken_names 100) = true /\
  getStorageFolder Demo.offline "/storage" "https://example.com/db.zip"
    (Demo.empty_world (crowded_storage 100))
  = (Ok ["storage"; "db-100"], Demo.empty_world (crowded_storage 100)).
Proof. vm_compute. repeat split. Qed.

(** ** The source archive *)

(** Unfolding the monad, one layer at a time. *)
Ltac run :=
  unfold progress;
  unfold bind, ret, throw, lift, emit, read_fs, fs_pathExists, try_catch,
    fire_and_forget;
  cbv beta iota zeta; cbn [fst snd fs events].

Lemma src_paths (databasePath : path) :
  join databasePath "src" = databasePath ++ ["src"] /\
  add_ext (join databasePath "src") ".zip" = databasePath ++ ["src.zip"].
Proof.
  assert (H : join databasePath "src" = databasePath ++ ["src"]) by reflexivity.
  split; [exact H |]. rewrite H. apply add_ext_last.
Qed.

Lemma src_is_not_zip : "src" <> "src.zip".
Proof. discriminate. Qed.

(** One call, spelled out on the two questions it asks. *)
Lemma ensureZippedSourceLocation_run (h : Host) (databasePath : path) (w : world) :
  let src := databasePath ++ ["src"] in
  let srcZip := databasePath ++ ["src.zip"] in
  ensureZippedSourceLocation h databasePath w =
  if pathExists (fs w) src && negb (pathExists (fs w) srcZip)
  then bind (zip src srcZip) (fun _ => fs_remove h src) w
  else (Ok tt, w).
Proof.
  intros src srcZip. unfold ensureZippedSourceLocation.
  destruct (src_paths databasePath) as [-> ->]. subst src srcZip. run.
  destruct (pathExists (fs w) (databasePath ++ ["src"])); [| reflexivity].
  destruct (pathExists (fs w) (databasePath ++ ["src.zip"])); reflexivity.
Qed.

(** What zipping and removing do when the folder is there and the zip is
    not: the world afterwards has the zip, and the folder too exactly when
    its deletion was refused. *)
Lemma zip_then_remove (h : Host) (databasePath : path) (w : world) :
  let src := databasePath ++ ["src"] in
  let srcZip := databasePath ++ ["src.zip"] in
  pathExists (fs w) src = true ->
  exists content root,
    lookup (fs w) src = Some content /\
    write (fs w) srcZip (Zip content) = Some root /\
    bind (zip src srcZip) (fun _ => fs_remove h src) w =
    if remove_refused h src
    then (Throw (Error "EPERM: operation not permitted"),
          {| fs := root; events := events w |})
    else (Ok tt, {| fs := remove root src; events := events w |}).
Proof.
  intros src srcZip Hsrc. unfold pathExists in Hsrc.
  destruct (lookup (fs w) src) as [content |] eqn:Hcontent; [| discriminate].
  destruct (write_beside databasePath "src" "src.zip" (Zip content) (fs w) content Hcontent)
    as [root Hroot].
  exists content, root. repeat split; auto.
  subst src srcZip. unfold zip, fs_remove, write_file. run.
  rewrite Hcontent. cbn. rewrite Hroot. cbn.
  destruct (remove_refused h _); reflexivity.
Qed.

(** C3. [ensureZippedSourceLocation] is idempotent: a second call on the
    same database root returns without error and leaves the world as the
    first call left it.  When [src.zip] exists the call changes nothing, so
    the zip is not overwritten and a loose [src] stays; when there is no
    [src] it changes nothing either.  When [src] is there without a zip and
    may be deleted, the call succeeds, [src.zip] holds the former [src] and
    [src] is gone. *)
Theorem ensureZippedSourceLocation_idempotent (h : Host) (databasePath : path)
  (w : world) :
  let src := databasePath ++ ["src"] in
  let srcZip := databasePath ++ ["src.zip"] in
  let once := ensureZippedSourceLocation h databasePath w in
  let twice := ensureZippedSourceLocation h databasePath (snd once) in
  twice = (Ok tt, snd once) /\
  (pathExists (fs w) srcZip = true -> once = (Ok tt, w)) /\
  (pathExists (fs w) src = false -> once = (Ok tt, w)) /\
  (pathExists (fs w) src = true -> pathExists (fs w) srcZip = false ->
   remove_refused h src = false ->
   fst once = Ok tt /\
   lookup (fs (snd once)) srcZip = option_map Zip (lookup (fs w) src) /\
   pathExists (fs (snd once)) src = false).
Proof.
  intros src srcZip once twice. subst once twice.
  rewrite !ensureZippedSourceLocation_run. subst src srcZip.
  set (src := databasePath ++ ["src"]). set (srcZip := databasePath ++ ["src.zip"]).
  destruct (pathExists (fs w) src) eqn:Hsrc; cbn [andb].
  2: { cbn [snd]. rewrite Hsrc. repeat split; auto; discriminate. }
  destruct (pathExists (fs w) srcZip) eqn:Hzip; cbn [negb].
  { cbn [snd]. rewrite Hsrc, Hzip. repeat split; auto; discriminate. }
  destruct (zip_then_remove h databasePath w Hsrc)
    as (content & root & Hcontent & Hroot & Hrun).
  pose proof (lookup_write_same databasePath "src.zip" (Zip content) (fs w) root Hroot)
    as Hnew.
  pose proof (lookup_write_sibling databasePath "src" "src.zip" (Zip content)
                src_is_not_zip (fs w) root Hroot) as Hkept.
  fold src srcZip in Hnew, Hkept, Hrun, Hcontent. rewrite Hrun.
  destruct (remove_refused h src) eqn:Hrefused; cbn [fst snd fs].
  - unfold pathExists at 1 2. rewrite Hnew, Hkept, Hcontent. cbn.
    repeat split; auto; discriminate.
  - assert (Hgone : pathExists (remove root src) src = false).
    { unfold pathExists, src. now rewrite lookup_remove_same. }
    rewrite Hgone. cbn. repeat split; auto; try discriminate.
    unfold src, srcZip. rewrite lookup_remove_sibling by exact src_is_not_zip.
    fold src srcZip. now rewrite Hnew, Hcontent.
Qed.

Lemma ensureZippedSourceLocation_idempotent_witness :
  let w := Demo.empty_world sample_unpacked in
  let once := ensureZippedSourceLocation Demo.offline ["nested"] w in
  ensureZippedSourceLocation Demo.offline ["nested"] (snd once) = (Ok tt, snd once) /\
  fst once = Ok tt /\
  lookup (fs (snd once)) ["nested"; "src.zip"]
  = Some (Zip (Dir [("a.c", File "int main;")])) /\
  pathExists (fs (snd once)) ["nested"; "src"] = false.
Proof.
  intros w once.
  destruct (ensureZippedSourceLocation_idempotent Demo.offline ["nested"] w)
    as (Htwice & _ & _ & Hzip).
  split; [exact Htwice |].
  apply Hzip; reflexivity.
Defined.

(** A successful normalisation leaves both [src] and [src.zip] behind
    exactly when it found both. *)
Lemma ensureZippedSourceLocation_layout (h : Host) (databasePath : path)
  (w w1 : world) :
  ensureZippedSourceLocation h databasePath w = (Ok tt, w1) ->
  let src := databasePath ++ ["src"] in
  let srcZip := databasePath ++ ["src.zip"] in
  pathExists (fs w1) src && pathExists (fs w1) srcZip
  = pathExists (fs w) src && pathExists (fs w) srcZip
  /\ (pathExists (fs w) src = true -> pathExists (fs w) srcZip = false ->
      pathExists (fs w1) src = false /\ pathExists (fs w1) srcZip = true)
  /\ events w1 = events w.
Proof.
  intros Hrun src srcZip. subst src srcZip.
  rewrite ensureZippedSourceLocation_run in Hrun.
  set (src := databasePath ++ ["src"]) in *.
  set (srcZip := databasePath ++ ["src.zip"]) in *.
  destruct (pathExists (fs w) src) eqn:Hsrc; cbn [andb] in Hrun.
  2: { injection Hrun as <-. rewrite Hsrc. repeat split; auto; discriminate. }
  destruct (pathExists (fs w) srcZip) eqn:Hzip; cbn [negb] in Hrun.
  { injection Hrun as <-. rewrite Hsrc, Hzip. repeat split; auto; discriminate. }
  destruct (zip_then_remove h databasePath w Hsrc)
    as (content & root & Hcontent & Hroot & Hboth).
  fold src srcZip in Hboth, Hroot. rewrite Hboth in Hrun.
  destruct (remove_refused h src); [discriminate |]. injection Hrun as <-.
  cbn [fs events].
  assert (Hgone : pathExists (remove root src) src = false).
  { unfold pathExists, src. now rewrite lookup_remove_same. }
  assert (Hthere : pathExists (remove root src) srcZip = true).
  { unfold pathExists, src, srcZip.
    rewrite lookup_remove_sibling by exact src_is_not_zip.
    now rewrite (lookup_write_same databasePath "src.zip" _ _ _ Hroot). }
  rewrite Hgone, Hthere. repeat split; auto.
Qed.

(** C4, as the code has it.  A successful import went through the unpacked
    tree, found the database root in it and opened that root; in the opened
    root a loose [src] and a [src.zip] are both present exactly when the
    unpacked archive had both there.  An archive with a loose [src] only ends
    with [src.zip] only. *)
Theorem import_keeps_both_only_if_archive_had_both (h : Host)
  (databaseUrl : string) (requestHeaders : list (string * string))
  (storagePath : string) (nameOverride : option string) (origin : DatabaseOrigin)
  (makeSelected addSourceArchiveFolder : bool) (w w' : world) (item : DatabaseItem) :
  databaseArchiveFetcher h databaseUrl requestHeaders storagePath nameOverride
    origin makeSelected addSourceArchiveFolder w = (Ok item, w') ->
  exists unzipPath unpacked tree dbPath,
    acquire_and_unpack h databaseUrl requestHeaders storagePath w
      = (Ok unzipPath, unpacked) /\
    lookup (fs unpacked) unzipPath = Some tree /\
    findDirWithFile unzipPath tree [".dbinfo"; "codeql-database.yml"] = Some dbPath /\
    In (OpenDatabase dbPath) (events w') /\
    (pathExists (fs w') (dbPath ++ ["src"]) && pathExists (fs w') (dbPath ++ ["src.zip"])
     = pathExists (fs unpacked) (dbPath ++ ["src"])
       && pathExists (fs unpacked) (dbPath ++ ["src.zip"])) /\
    (pathExists (fs unpacked) (dbPath ++ ["src"]) = true ->
     pathExists (fs unpacked) (dbPath ++ ["src.zip"]) = false ->
     pathExists (fs w') (dbPath ++ ["src"]) = false /\
     pathExists (fs w') (dbPath ++ ["src.zip"]) = true).
Proof.
  unfold databaseArchiveFetcher. unfold bind at 1.
  destruct (acquire_and_unpack h databaseUrl requestHeaders storagePath w)
    as [[unzipPath | e] unpacked] eqn:Hacquire; [| discriminate].
  unfold locate_normalize_register, findDirWithFile_at. run.
  destruct (lookup (fs unpacked) unzipPath) as [tree |] eqn:Htree;
    cbv beta iota; [| discriminate].
  destruct (findDirWithFile unzipPath tree [".dbinfo"; "codeql-database.yml"])
    as [dbPath |] eqn:Hfound; cbv beta iota; [| discriminate].
  match goal with
  | |- context [ensureZippedSourceLocation h dbPath ?w0] =>
      destruct (ensureZippedSourceLocation h dbPath w0) as [[[] | e] w1] eqn:Hnorm;
      cbv beta iota; [| discriminate]
  end.
  apply ensureZippedSourceLocation_layout in Hnorm.
  cbn [fs events] in Hnorm. destruct Hnorm as (Hboth & Hone & Hevents).
  destruct (openDatabase h dbPath origin makeSelected nameOverride
              addSourceArchiveFolder) as [opened | e]; cbv beta iota;
    [| discriminate].
  intro Hdone. injection Hdone as _ <-. cbn [fs events].
  exists unzipPath, unpacked, tree, dbPath. repeat split; auto.
  - apply in_or_app. right. now left.
  - now apply Hone.
  - now apply Hone.
Qed.

Lemma import_keeps_both_only_if_archive_had_both_witness :
  exists w',
    snd (databaseArchiveFetcher Demo.offline "file:///tmp/db.zip" [] "/storage" None
           (OriginArchive "file:///tmp/db.zip") true true
           (Demo.empty_world (disk_with_archive sample_unpacked))) = w' /\
    pathExists (fs w') ["storage"; "db"; "nested"; "src"] = false /\
    pathExists (fs w') ["storage"; "db"; "nested"; "src.zip"] = true.
Proof.
  eexists. split; [reflexivity |].
  destruct (import_keeps_both_only_if_archive_had_both Demo.offline
              "file:///tmp/db.zip" [] "/storage" None
              (OriginArchive "file:///tmp/db.zip") true true
              (Demo.empty_world (disk_with_archive sample_unpacked)) _ _ eq_refl)
    as (unzipPath & unpacked & tree & dbPath & Hacquire & Htree & Hfound & _ & _ & Hone).
  vm_compute in Hacquire. injection Hacquire as <- <-.
  vm_compute in Htree. injection Htree as <-.
  vm_compute in Hfound. injection Hfound as <-.
  apply Hone; reflexivity.
Defined.

(** C4, the claim as written fails: an archive whose database root holds
    both a loose [src] and a [src.zip] is imported successfully, and the
    registered directory still holds both. *)
Lemma import_of_archive_with_both_keeps_both :
  let run := databaseArchiveFetcher Demo.offline "file:///tmp/db.zip" [] "/storage"
               None (OriginArchive "file:///tmp/db.zip") true true
               (Demo.empty_world (disk_with_archive database_with_both)) in
  fst run = Ok {| databaseUri := ["storage"; "db"];
                  item_origin := OriginArchive "file:///tmp/db.zip";
                  item_name := None |} /\
  lookup (fs (snd run)) ["storage"; "db"; "src"] = Some (Dir [("a.c", File "int main;")]) /\
  lookup (fs (snd run)) ["storage"; "db"; "src.zip"]
  = Some (Zip (Dir [("a.c", File "int main;")])).
Proof. vm_compute. repeat split. Qed.

(** ** Validation of addresses *)

Lemma promptImportInternetDatabase_rejected (h : Host) (storagePath : string)
  (w : world) (databaseUrl : string) (e : error) :
  showInputBox h "Enter URL of zipfile of database to download" = Some databaseUrl ->
  databaseUrl <> "" ->
  validateUrl h databaseUrl = Throw e ->
  promptImportInternetDatabase h storagePath w =
  (Throw e,
   {| fs := fs w;
      events := events w ++ [ShowInputBox "Enter URL of zipfile of database to download"] |}).
Proof.
  intros Hinput Hne Hinvalid. unfold promptImportInternetDatabase. run.
  rewrite Hinput. cbn [falsy text_of].
  apply String.eqb_neq in Hne. rewrite Hne, Hinvalid. reflexivity.
Qed.

(** C5, as the code has it.  An address typed by the user is checked by
    [validateUrl] before anything is downloaded: when it does not parse the
    import fails with "Invalid url", when its scheme is not [https] and
    insecure transport is not allowed it fails with "Must use https", and in
    both cases nothing but the prompt has happened; an [https] address, such
    as [https://example.com/db.zip], passes whatever the configuration. *)
Theorem typed_url_is_validated_before_download (h : Host) (storagePath : string)
  (w : world) (databaseUrl : string) :
  showInputBox h "Enter URL of zipfile of database to download" = Some databaseUrl ->
  databaseUrl <> "" ->
  let asked :=
    {| fs := fs w;
       events := events w ++ [ShowInputBox "Enter URL of zipfile of database to download"] |} in
  (Uri_parse h true databaseUrl = None ->
   promptImportInternetDatabase h storagePath w =
   (Throw (Error ("Invalid url: " +++ databaseUrl)), asked)) /\
  (forall uri,
      Uri_parse h true databaseUrl = Some uri ->
      scheme uri <> "https" -> allowHttp h = false ->
      promptImportInternetDatabase h storagePath w =
      (Throw (Error "Must use https for downloading a database."), asked)) /\
  (forall uri,
      Uri_parse h true databaseUrl = Some uri ->
      scheme uri = "https" \/ allowHttp h = true ->
      validateUrl h databaseUrl = Ok tt) /\
  (forall uri,
      Uri_parse h true "https://example.com/db.zip" = Some uri ->
      scheme uri = "https" ->
      validateUrl h "https://example.com/db.zip" = Ok tt).
Proof.
  intros Hinput Hne asked. repeat split.
  - intro Hparse.
    apply (promptImportInternetDatabase_rejected h storagePath w databaseUrl); auto.
    unfold validateUrl. now rewrite Hparse.
  - intros uri Hparse Hscheme Hallow.
    apply (promptImportInternetDatabase_rejected h storagePath w databaseUrl); auto.
    unfold validateUrl. rewrite Hparse, Hallow.
    apply String.eqb_neq in Hscheme. now rewrite Hscheme.
  - intros uri Hparse [Hscheme | Hallow]; unfold validateUrl; rewrite Hparse.
    + rewrite Hscheme. cbn. now rewrite andb_false_r.
    + now rewrite Hallow.
  - intros uri Hparse Hscheme. unfold validateUrl. rewrite Hparse, Hscheme.
    cbn. now rewrite andb_false_r.
Qed.

Lemma typed_url_is_validated_before_download_witness :
  promptImportInternetDatabase strict_host "/storage" (Demo.empty_world empty_disk)
  = (Throw (Error "Must use https for downloading a database."),
     {| fs := empty_disk;
        events := [ShowInputBox "Enter URL of zipfile of database to download"] |})
  /\ validateUrl strict_host "https://example.com/db.zip" = Ok tt.
Proof.
  destruct (typed_url_is_validated_before_download strict_host "/storage"
              (Demo.empty_world empty_disk) "http://example.com/db.zip" eq_refl)
    as (_ & Hinsecure & _ & Hexample).
  - discriminate.
  - split.
    + apply (Hinsecure {| scheme := "http"; authority := "example.com";
                          uri_path := "/db.zip" |}); [reflexivity | discriminate | reflexivity].
    + apply (Hexample {| scheme := "https"; authority := "example.com";
                         uri_path := "/db.zip" |}); reflexivity.
Defined.

(** C5, the claim as written fails: an address supplied through the GitHub
    path is not checked.  With insecure transport disallowed, [validateUrl]
    would refuse [http://example.com/db.zip], yet
    [downloadGitHubDatabaseFromUrl] requests it and imports the database. *)
Lemma github_url_is_fetched_unvalidated :
  let run := downloadGitHubDatabaseFromUrl strict_host "http://example.com/db.zip"
               7 "2024-01-01T00:00:00Z" None "github" "codeql" "/storage" true true
               (Demo.empty_world empty_disk) in
  allowHttp strict_host = false /\
  validateUrl strict_host "http://example.com/db.zip"
  = Throw (Error "Must use https for downloading a database.") /\
  In (Fetch "http://example.com/db.zip"
        [("Accept", "application/zip"); ("Authorization", "")])
     (events (snd run)) /\
  fst run = Ok (Some {| databaseUri := ["storage"; "db"; "nested"];
                        item_origin := OriginGithub "github/codeql" 7
                                         "2024-01-01T00:00:00Z" None;
                        item_name := Some "github/codeql" |}).
Proof. vm_compute. repeat split. right. right. right. now left. Qed.

(** C10. When the text neither yields a name-with-owner as a GitHub URL nor
    is one itself, [downloadGitHubDatabase] throws "Invalid GitHub
    repository" naming the text, and the world is as it was: nothing was
    requested, nobody was asked, nothing was written. *)
Theorem downloadGitHubDatabase_rejects_invalid_repository (h : Host)
  (githubRepo storagePath : string) (language : option string)
  (makeSelected addSourceArchiveFolder : bool) (w : world) :
  getNwoFromGitHubUrl h githubRepo = None ->
  isValidGitHubNwo h githubRepo = false ->
  downloadGitHubDatabase h githubRepo storagePath language makeSelected
    addSourceArchiveFolder w
  = (Throw (Error ("Invalid GitHub repository: " +++ githubRepo)), w).
Proof.
  intros Hurl Hnwo. unfold downloadGitHubDatabase.
  rewrite Hurl. cbn [falsy]. rewrite Hnwo. reflexivity.
Qed.

Lemma downloadGitHubDatabase_rejects_invalid_repository_witness :
  downloadGitHubDatabase Demo.offline "not a repository" "/storage" None true true
    (Demo.empty_world empty_disk)
  = (Throw (Error "Invalid GitHub repository: not a repository"),
     Demo.empty_world empty_disk).
Proof.
  apply (downloadGitHubDatabase_rejects_invalid_repository Demo.offline
           "not a repository" "/storage" None true true
           (Demo.empty_world empty_disk)); reflexivity.
Defined.

(** ** Resolution of a GitHub database *)

Lemma includes_find (response : list CodeqlDatabase) (l : string) :
  includes (map db_language response) l = true ->
  exists db, find (fun db => db_language db =? l) response = Some db.
Proof.
  unfold includes. induction response as [| db rest IH]; simpl; [discriminate |].
  rewrite (String.eqb_sym l). destruct (db_language db =? l); eauto.
Qed.

(** C6. With the listing of the repository at hand: a language argument that
    is among the listed languages is selected as it is, and nothing is shown
    or reported; without such an argument, a listing of exactly one database
    selects its language after the report "Choose language", and no picker
    is shown; a listing of two or more shows the picker, and when the user
    declines the resolution returns "not chosen" without an error. *)
Theorem language_selection (h : Host) (nwo : string) (requested : option string)
  (w : world) (response : list CodeqlDatabase) :
  let owner := nth_error (segments nwo) 0 in
  let repo := nth_error (segments nwo) 1 in
  listCodeqlDatabases h owner repo = Ok response ->
  let languages := map db_language response in
  let listed :=
    {| fs := fs w; events := events w ++ [ListCodeqlDatabases owner repo] |} in
  let reported :=
    {| fs := fs w;
       events := events listed ++
                 [Progress {| message := "Choose language"; step := 2; maxStep := 2 |}] |} in
  let matching := negb (falsy requested) && includes languages (text_of requested) in
  (matching = true ->
   exists db,
     find (fun db => db_language db =? text_of requested) response = Some db /\
     convertGithubNwoToDatabaseUrl h nwo requested w
     = (Ok (Some (selected_database owner repo db)), listed)) /\
  (matching = false ->
   forall db, response = [db] -> db_language db <> "" ->
     convertGithubNwoToDatabaseUrl h nwo requested w
     = (Ok (Some (selected_database owner repo db)), reported)) /\
  (matching = false -> 2 <= List.length response ->
   let items := sort_items h (map (language_item h) languages) in
   let picking :=
     {| fs := fs w; events := events reported ++ [ShowQuickPick items] |} in
   In (ShowQuickPick items)
      (events (snd (convertGithubNwoToDatabaseUrl h nwo requested w))) /\
   (showQuickPick h items = None ->
    convertGithubNwoToDatabaseUrl h nwo requested w = (Ok None, picking))).
Proof.
  intros owner repo Hlisting languages listed reported matching.
  assert (Hcond : falsy requested || negb (includes languages (text_of requested))
                  = negb matching).
  { unfold matching. now rewrite negb_andb, negb_involutive. }
  assert (Hstart : forall (body : list CodeqlDatabase -> M (option GithubDatabase))
                           handler,
             try_catch
               (bind (emit (ListCodeqlDatabases owner repo))
                  (fun _ => bind (lift (listCodeqlDatabases h owner repo)) body))
               handler w
             = try_catch (body response) handler listed).
  { intros body handler. unfold try_catch, bind, emit, lift. now rewrite Hlisting. }
  unfold convertGithubNwoToDatabaseUrl. cbv zeta. fold owner repo.
  rewrite Hstart. fold languages. rewrite Hcond. clear Hstart Hcond.
  split; [| split].
  - intro Hmatch. rewrite Hmatch. cbn [negb].
    assert (Hin : includes languages (text_of requested) = true).
    { unfold matching in Hmatch. now apply andb_prop in Hmatch. }
    destruct (includes_find response _ Hin) as [db Hdb].
    exists db. split; [exact Hdb |].
    unfold database_for. rewrite Hdb. reflexivity.
  - intros Hmatch db Hone Hnamed. rewrite Hmatch. cbn [negb].
    unfold languages. rewrite Hone. cbn [map].
    unfold promptForLanguage. run.
    cbn [falsy text_of]. apply String.eqb_neq in Hnamed. rewrite Hnamed.
    unfold database_for. cbn [find]. now rewrite String.eqb_refl.
  - intros Hmatch Hmany. rewrite Hmatch. cbn [negb].
    unfold languages.
    destruct response as [| db1 [| db2 rest]]; cbn [List.length] in Hmany; try lia.
    cbn [map]. unfold promptForLanguage. run. cbn [map]. split.
    + match goal with
      | |- context [showQuickPick h ?items] =>
          destruct (showQuickPick h items) as [item |]
      end; run; cbn [falsy].
      * destruct (language item =? ""); run.
        -- apply in_or_app. now right; left.
        -- unfold database_for.
           destruct (find _ _); run; cbn [events];
             repeat (apply in_or_app; (now right; left) || left).
      * apply in_or_app. now right; left.
    + intros Hdeclined. now rewrite Hdeclined.
Qed.

(** The two cases of the spec: ["python"] alone resolves without a picker;
    ["python"; "java"] shows the picker and a declined pick ends cleanly. *)
Lemma language_selection_witness :
  convertGithubNwoToDatabaseUrl (github_host [python_db] (fun _ => None)) "o/r" None
    (Demo.empty_world empty_disk)
  = (Ok (Some (selected_database (Some "o") (Some "r") python_db)),
     {| fs := empty_disk;
        events := [ListCodeqlDatabases (Some "o") (Some "r");
                   Progress {| message := "Choose language"; step := 2; maxStep := 2 |}] |})
  /\
  convertGithubNwoToDatabaseUrl (github_host [python_db; java_db] (fun _ => None))
    "o/r" None (Demo.empty_world empty_disk)
  = (Ok None,
     {| fs := empty_disk;
        events := [ListCodeqlDatabases (Some "o") (Some "r");
                   Progress {| message := "Choose language"; step := 2; maxStep := 2 |};
                   ShowQuickPick [{| label := "java"; description := "java";
                                     language := "java" |};
                                  {| label := "python"; description := "python";
                                     language := "python" |}]] |}).
Proof.
  split.
  - destruct (language_selection (github_host [python_db] (fun _ => None)) "o/r" None
                (Demo.empty_world empty_disk) [python_db] eq_refl) as (_ & Hone & _).
    apply Hone; [reflexivity | reflexivity | discriminate].
  - destruct (language_selection (github_host [python_db; java_db] (fun _ => None))
                "o/r" None (Demo.empty_world empty_disk) [python_db; java_db] eq_refl)
      as (_ & _ & Hmany).
    apply Hmany; [reflexivity | simpl; lia | reflexivity].
Defined.


(** ** The temporary archive *)

Lemma temporary_archive_in_tmpDir (h : Host) :
  exists file, temporary_archive h = tmpDir h ++ [file].
Proof. eexists. unfold temporary_archive. apply join_plain; reflexivity. Qed.

Lemma progress_all_run (ps : list ProgressUpdate) : forall w,
  progress_all ps w = (Ok tt, {| fs := fs w; events := events w ++ map Progress ps |}).
Proof.
  induction ps as [| p ps IH]; intros [root es]; cbn [progress_all map].
  - unfold ret. cbn. now rewrite app_nil_r.
  - run. rewrite IH. cbn. now rewrite <- app_assoc.
Qed.

Lemma reportStreamProgress_run (chunks : list nat) (messagePrefix : string)
  (totalNumBytes : option nat) (w : world) :
  exists reports,
    reportStreamProgress chunks messagePrefix totalNumBytes w
    = (Ok tt, {| fs := fs w; events := events w ++ map Progress reports |}).
Proof.
  destruct totalNumBytes as [total |]; cbn [reportStreamProgress].
  - eexists. apply progress_all_run.
  - exists []. destruct w. unfold ret. cbn. now rewrite app_nil_r.
Qed.

(** A stream that breaks leaves no archive behind, unless the deletion is
    refused; the error is the stream's either way. *)
Lemma broken_stream_is_cleaned_up (h : Host) (r : Response) (w : world)
  (chunks : list nat) (partial : string) (e : error) :
  body r = Failed chunks partial e ->
  let run :=
    try_catch (pipe_body r (temporary_archive h))
      (fun e => bind (fire_and_forget (fs_remove h (temporary_archive h)))
                  (fun _ => match e with
                            | AbortError _ => throw (AbortError "The download timed out.")
                            | _ => throw e
                            end)) w in
  fst run = Throw (A := unit)
              match e with
              | AbortError _ => AbortError "The download timed out."
              | _ => e
              end /\
  (remove_refused h (temporary_archive h) = false ->
   pathExists (fs (snd run)) (temporary_archive h) = false).
Proof.
  intros Hbody run. subst run.
  destruct (temporary_archive_in_tmpDir h) as [file Hpath].
  destruct (reportStreamProgress_run chunks "Downloading database" (content_length r) w)
    as [reports Hreports].
  unfold pipe_body. rewrite Hbody.
  unfold try_catch, bind, fire_and_forget, throw, ret.
  rewrite Hreports. cbv beta iota.
  destruct (write_file (temporary_archive h) (File partial) _) as [[[] | e1] w1];
    cbv beta iota; unfold fs_remove;
    destruct (remove_refused h (temporary_archive h)); destruct e;
    cbn [fst snd fs events]; (split; [reflexivity |]); try discriminate;
    intros _; unfold pathExists; rewrite Hpath; now rewrite lookup_remove_same.
Qed.

Lemma bind_ok {A B} (m : M A) (k : A -> M B) (w w1 : world) (a : A) :
  m w = (Ok a, w1) -> bind m k w = k a w1.
Proof. unfold bind. now intros ->. Qed.

Lemma bind_throw {A B} (m : M A) (k : A -> M B) (w w1 : world) (e : error) :
  m w = (Throw e, w1) -> bind m k w = (Throw e, w1).
Proof. unfold bind. now intros ->. Qed.

(** The request and the check of the response touch no file. *)
Lemma request_keeps_files (h : Host) (databaseUrl : string)
  (requestHeaders : list (string * string)) (w : world) :
  let request :=
    try_catch
      (bind (emit (Fetch databaseUrl requestHeaders))
         (fun _ => match fetch h databaseUrl requestHeaders with
                   | Rejected e => throw e
                   | Responded r => checkForFailingResponse h r "Error downloading database"
                   end))
      (fun e => match e with
                | AbortError _ => throw (AbortError "The request timed out.")
                | _ => throw e
                end) w in
  fs (snd request) = fs w /\
  match fetch h databaseUrl requestHeaders with
  | Rejected _ => exists e, fst request = Throw e
  | Responded r => if ok r then fst request = Ok r else exists e, fst request = Throw e
  end.
Proof.
  unfold checkForFailingResponse. run.
  destruct (fetch h databaseUrl requestHeaders) as [e | r].
  - destruct e; cbn; eauto.
  - destruct (ok r); cbn; eauto.
Qed.

(** C8, as the code has it.  When [fetchAndUnzip] succeeds, the temporary
    archive is gone, and its deletion was not refused: the deletion is
    awaited, so a refusal makes the stage fail.  When the stream of the
    download breaks, the caller gets the stream's error (a timeout under
    the message "The download timed out."), whether or not the deletion
    works, and the archive is gone unless the deletion is refused.  When
    the request fails or the response is not a success, no file has been
    touched.  Nothing is said here of a failed unpack. *)
Theorem temporary_archive_cleanup (h : Host) (databaseUrl : string)
  (requestHeaders : list (string * string)) (unzipPath : path) (w : world) :
  let archivePath := temporary_archive h in
  let run := fetchAndUnzip h databaseUrl requestHeaders unzipPath w in
  (fst run = Ok tt ->
   pathExists (fs (snd run)) archivePath = false /\
   remove_refused h archivePath = false) /\
  (forall r chunks partial e,
      fetch h databaseUrl requestHeaders = Responded r -> ok r = true ->
      body r = Failed chunks partial e ->
      fst run = Throw match e with
                      | AbortError _ => AbortError "The download timed out."
                      | _ => e
                      end /\
      (remove_refused h archivePath = false ->
       pathExists (fs (snd run)) archivePath = false)) /\
  (forall e, fetch h databaseUrl requestHeaders = Rejected e ->
             fs (snd run) = fs w /\ exists e', fst run = Throw e') /\
  (forall r, fetch h databaseUrl requestHeaders = Responded r -> ok r = false ->
             fs (snd run) = fs w /\ exists e', fst run = Throw e').
Proof.
  intros archivePath run. subst run archivePath.
  unfold fetchAndUnzip. cbv zeta.
  rewrite (bind_ok _ _ w
             {| fs := fs w;
                events := events w ++
                          [Progress {| message := "Downloading database";
                                       step := 1; maxStep := 3 |}] |} tt)
    by reflexivity.
  match goal with
  | |- context [bind (try_catch ?m ?handler) _ ?w0] =>
      pose proof (request_keeps_files h databaseUrl requestHeaders w0) as [Hfiles Hanswer];
      cbv zeta in Hfiles, Hanswer;
      destruct (try_catch m handler w0) as [answer w1] eqn:Hrequest
  end.
  cbn [fst snd fs] in Hfiles, Hanswer.
  destruct (temporary_archive_in_tmpDir h) as [file Hpath].
  destruct answer as [r | e0].
  - rewrite (bind_ok _ _ _ _ _ Hrequest). split; [| split; [| split]].
    + (* success *)
      unfold bind.
      destruct (try_catch (pipe_body r (temporary_archive h)) _ w1) as [[[] | e] w2];
        [| discriminate].
      destruct (readAndUnzip h _ unzipPath w2) as [[[] | e] w3]; [| discriminate].
      unfold fs_remove.
      destruct (remove_refused h (temporary_archive h)); [discriminate |].
      intros _. cbn [snd fs]. unfold pathExists. rewrite Hpath.
      now rewrite lookup_remove_same.
    + (* broken stream *)
      intros r0 chunks partial e Hfetch Hok Hbody.
      rewrite Hfetch, Hok in Hanswer. injection Hanswer as ->.
      pose proof (broken_stream_is_cleaned_up h r0 w1 chunks partial e Hbody)
        as [Herror Hgone].
      cbv zeta in Herror, Hgone.
      match type of Herror with
      | fst (?m ?w0) = _ => destruct (m w0) as [res w2] eqn:Hstream
      end.
      cbn [fst snd] in Herror, Hgone. subst res.
      now rewrite (bind_throw _ _ _ _ _ Hstream).
    + intros e Hfetch. rewrite Hfetch in Hanswer. now destruct Hanswer.
    + intros r0 Hfetch Hok. rewrite Hfetch, Hok in Hanswer. now destruct Hanswer.
  - rewrite (bind_throw _ _ _ _ _ Hrequest). cbn [fst snd].
    split; [discriminate |]. split; [| split; eauto].
    intros r0 chunks partial e Hfetch Hok Hbody.
    rewrite Hfetch, Hok in Hanswer. discriminate.
Qed.

Lemma temporary_archive_cleanup_witness :
  let run := fetchAndUnzip (breaking_host (fun _ => false)) "https://example.com/db.zip"
               [] ["storage"; "db"] (Demo.empty_world empty_disk) in
  fst run = Throw (AbortError "The download timed out.") /\
  pathExists (fs (snd run)) ["tmp"; "archive-1700000000000.zip"] = false.
Proof.
  destruct (temporary_archive_cleanup (breaking_host (fun _ => false))
              "https://example.com/db.zip" [] ["storage"; "db"]
              (Demo.empty_world empty_disk)) as (_ & Hbroken & _).
  destruct (Hbroken _ [4] "PK.." (AbortError "The operation was aborted.")
              eq_refl eq_refl eq_refl) as [Herror Hgone].
  split; [exact Herror | apply Hgone; reflexivity].
Defined.

(** C8, the claim as written fails: when the downloaded file cannot be
    unpacked, the stage ends with the unpacker's error and the temporary
    archive is still on disk; and when the deletion after a successful
    unpack is refused, that refusal is what the caller gets. *)
Lemma failed_unpack_leaves_the_archive :
  let run := fetchAndUnzip garbage_host "https://example.com/db.zip" []
               ["storage"; "db"] (Demo.empty_world empty_disk) in
  let refused := fetchAndUnzip undeletable_host "https://example.com/db.zip" []
                   ["storage"; "db"] (Demo.empty_world empty_disk) in
  temporary_archive garbage_host = ["tmp"; "archive-1700000000000.zip"] /\
  fst run = Throw (Error "unexpected end of file") /\
  lookup (fs (snd run)) ["tmp"; "archive-1700000000000.zip"]
  = Some (File "<html>not a zip</html>") /\
  fst refused = Throw (Error "EPERM: operation not permitted") /\
  lookup (fs (snd refused)) ["storage"; "db"] = Some sample_unpacked.
Proof. vm_compute. repeat split. Qed.

(** ** Progress reports *)

Lemma progress_reports_app (es1 es2 : list event) :
  progress_reports (es1 ++ es2) = progress_reports es1 ++ progress_reports es2.
Proof.
  induction es1 as [| e es1 IH]; [reflexivity |].
  destruct e; cbn; now rewrite ?IH.
Qed.

Lemma grows_ret {A} (a : A) : grows (ret a).
Proof. intro w. exists []. cbn. now rewrite app_nil_r. Qed.

Lemma grows_throw {A} (e : error) : grows (@throw A e).
Proof. intro w. exists []. cbn. now rewrite app_nil_r. Qed.

Lemma grows_lift {A} (r : result A) : grows (lift r).
Proof. intro w. exists []. cbn. now rewrite app_nil_r. Qed.

Lemma grows_emit (e : event) : grows (emit e).
Proof. intro w. now exists [e]. Qed.

Lemma grows_bind {A B} (m : M A) (k : A -> M B) :
  grows m -> (forall a, grows (k a)) -> grows (bind m k).
Proof.
  intros Hm Hk w. unfold bind. destruct (Hm w) as [more1 H1].
  destruct (m w) as [[a | e] w1]; cbn [snd] in *.
  - destruct (Hk a w1) as [more2 H2]. exists (more1 ++ more2).
    now rewrite H2, H1, app_assoc.
  - now exists more1.
Qed.

Lemma grows_try_catch {A} (m : M A) (handler : error -> M A) :
  grows m -> (forall e, grows (handler e)) -> grows (try_catch m handler).
Proof.
  intros Hm Hk w. unfold try_catch. destruct (Hm w) as [more1 H1].
  destruct (m w) as [[a | e] w1]; cbn [snd] in *.
  - now exists more1.
  - destruct (Hk e w1) as [more2 H2]. exists (more1 ++ more2).
    now rewrite H2, H1, app_assoc.
Qed.

Lemma grows_fire_and_forget {A} (m : M A) : grows m -> grows (fire_and_forget m).
Proof. intros Hm w. exact (Hm w). Qed.

Lemma grows_read_fs : grows read_fs.
Proof. intro w. exists []. cbn. now rewrite app_nil_r. Qed.

Lemma grows_write_file (p : path) (v : node) : grows (write_file p v).
Proof.
  intro w. exists []. unfold write_file.
  destruct (write (fs w) p v); cbn; now rewrite app_nil_r.
Qed.

Lemma grows_fs_remove (h : Host) (p : path) : grows (fs_remove h p).
Proof.
  intro w. exists []. unfold fs_remove.
  destruct (remove_refused h p); cbn; now rewrite app_nil_r.
Qed.

Lemma grows_progress_all (ps : list ProgressUpdate) : grows (progress_all ps).
Proof. intro w. rewrite progress_all_run. cbn. eauto. Qed.

Create HintDb grows.
#[local] Hint Resolve grows_ret grows_throw grows_lift grows_emit grows_read_fs
  grows_write_file grows_fs_remove grows_progress_all : grows.

(** Take a computation apart along its binds, handlers and case splits. *)
Ltac grow :=
  repeat match goal with
         | |- grows (bind _ _) => apply grows_bind; [| intro]
         | |- grows (try_catch _ _) => apply grows_try_catch; [| intro]
         | |- grows (fire_and_forget _) => apply grows_fire_and_forget
         | |- grows (if ?x then _ else _) => destruct x
         | |- grows (match ?x with _ => _ end) => destruct x
         | |- grows _ => solve [auto with grows]
         end.

Lemma grows_readAndUnzip (h : Host) (zipUrl : string) (unzipPath : path) :
  grows (readAndUnzip h zipUrl unzipPath).
Proof. unfold readAndUnzip, parse_uri, progress, databaseUnbundle. grow. Qed.

Lemma grows_request (h : Host) (databaseUrl : string)
  (requestHeaders : list (string * string)) :
  grows (try_catch
           (bind (emit (Fetch databaseUrl requestHeaders))
              (fun _ => match fetch h databaseUrl requestHeaders with
                        | Rejected e => throw e
                        | Responded r =>
                            checkForFailingResponse h r "Error downloading database"
                        end))
           (fun e => match e with
                     | AbortError _ => throw (AbortError "The request timed out.")
                     | _ => throw e
                     end)).
Proof. unfold checkForFailingResponse. grow. Qed.

Lemma grows_pipe (h : Host) (r : Response) :
  grows (try_catch (pipe_body r (temporary_archive h))
           (fun e => bind (fire_and_forget (fs_remove h (temporary_archive h)))
                       (fun _ => match e with
                                 | AbortError _ => throw (AbortError "The download timed out.")
                                 | _ => throw e
                                 end))).
Proof. unfold pipe_body, reportStreamProgress. grow. Qed.

Lemma grows_fetchAndUnzip (h : Host) (databaseUrl : string)
  (requestHeaders : list (string * string)) (unzipPath : path) :
  grows (fetchAndUnzip h databaseUrl requestHeaders unzipPath).
Proof.
  unfold fetchAndUnzip. cbv zeta. unfold progress.
  apply grows_bind; [grow | intro].
  apply grows_bind; [apply grows_request | intro].
  apply grows_bind; [apply grows_pipe | intro].
  apply grows_bind; [apply grows_readAndUnzip | intro]. grow.
Qed.

(** A successful unpack ends with the report "9 of 10" and the call of the
    CLI. *)
Lemma readAndUnzip_reports (h : Host) (zipUrl : string) (unzipPath : path)
  (w w' : world) :
  readAndUnzip h zipUrl unzipPath w = (Ok tt, w') ->
  exists zipFile,
    events w' = events w ++
      [Progress {| message := "Unzipping into " +++ basename_of unzipPath;
                   step := 9; maxStep := 10 |};
       DatabaseUnbundle zipFile unzipPath].
Proof.
  unfold readAndUnzip, parse_uri, databaseUnbundle, write_file.
  destruct (Uri_parse h false zipUrl) as [u |]; run; [| discriminate].
  destruct (lookup (fs w) (resolve (fsPath u))) as [[b | image | es] |];
    cbv beta iota; cbn [fs events]; try discriminate.
  destruct (write (fs w) unzipPath image); cbv beta iota; [| discriminate].
  intro H. injection H as <-. cbn [events]. eexists. rewrite <- app_assoc. reflexivity.
Qed.

Lemma fetchAndUnzip_reports (h : Host) (databaseUrl : string)
  (requestHeaders : list (string * string)) (unzipPath : path) (w w' : world) :
  fetchAndUnzip h databaseUrl requestHeaders unzipPath w = (Ok tt, w') ->
  exists before zipFile,
    events w' = events w ++ before ++
      [Progress {| message := "Unzipping into " +++ basename_of unzipPath;
                   step := 9; maxStep := 10 |};
       DatabaseUnbundle zipFile unzipPath].
Proof.
  unfold fetchAndUnzip. cbv zeta.
  rewrite (bind_ok _ _ w
             {| fs := fs w;
                events := events w ++
                          [Progress {| message := "Downloading database";
                                       step := 1; maxStep := 3 |}] |} tt)
    by reflexivity.
  match goal with
  | |- context [bind (try_catch ?m ?handler) _ ?w0] =>
      destruct (grows_request h databaseUrl requestHeaders w0) as [more1 Hmore1];
      destruct (try_catch m handler w0) as [[r | e] w1] eqn:Hrequest
  end;
    [rewrite (bind_ok _ _ _ _ _ Hrequest)
    | rewrite (bind_throw _ _ _ _ _ Hrequest); discriminate].
  match goal with
  | |- context [bind (try_catch ?m ?handler) _ w1] =>
      destruct (grows_pipe h r w1) as [more2 Hmore2];
      destruct (try_catch m handler w1) as [[[] | e] w2] eqn:Hpipe
  end;
    [rewrite (bind_ok _ _ _ _ _ Hpipe)
    | rewrite (bind_throw _ _ _ _ _ Hpipe); discriminate].
  destruct (readAndUnzip h (Uri_file_toString h (temporary_archive h)) unzipPath w2)
    as [[[] | e] w3] eqn:Hunzip;
    [rewrite (bind_ok _ _ _ _ _ Hunzip)
    | rewrite (bind_throw _ _ _ _ _ Hunzip); discriminate].
  apply readAndUnzip_reports in Hunzip as [zipFile Hunzip].
  unfold fs_remove. destruct (remove_refused h (temporary_archive h)); [discriminate |].
  intro H. injection H as <-. cbn [snd events] in *.
  exists (Progress {| message := "Downloading database"; step := 1; maxStep := 3 |}
            :: more1 ++ more2), zipFile.
  rewrite Hunzip, Hmore2, Hmore1. cbn. now rewrite <- !app_assoc.
Qed.

Lemma ensureDir_silent (p : path) (w : world) :
  events (snd (ensureDir p w)) = events w.
Proof. unfold ensureDir. now destruct (mkdirp (fs w) p). Qed.

Lemma getStorageFolder_silent (h : Host) (storagePath urlStr : string) (w : world) :
  events (snd (getStorageFolder h storagePath urlStr w)) = events w.
Proof.
  unfold getStorageFolder, parse_uri, fs_realpath.
  destruct (Uri_parse h false urlStr); run; [| reflexivity].
  destruct (pathExists (fs w) (resolve storagePath)); reflexivity.
Qed.

Lemma isFile_silent (h : Host) (databaseUrl : string) (w : world) :
  events (snd (isFile h databaseUrl w)) = events w.
Proof. unfold isFile, parse_uri. now destruct (Uri_parse h false databaseUrl). Qed.

Lemma ensureZippedSourceLocation_silent (h : Host) (databasePath : path) (w : world) :
  events (snd (ensureZippedSourceLocation h databasePath w)) = events w.
Proof.
  rewrite ensureZippedSourceLocation_run.
  destruct (pathExists (fs w) (databasePath ++ ["src"])) eqn:Hsrc; [| reflexivity].
  destruct (negb (pathExists (fs w) (databasePath ++ ["src.zip"]))); [| reflexivity].
  destruct (zip_then_remove h databasePath w Hsrc) as (content & root & _ & _ & ->).
  now destruct (remove_refused h (databasePath ++ ["src"])).
Qed.

(** The first half of an import: "Getting database" first, then whatever
    transport and unpacking report; when it succeeds, "9 of 10" is the last
    report, and for a local archive the only other one. *)
Lemma acquire_and_unpack_reports (h : Host) (databaseUrl : string)
  (requestHeaders : list (string * string)) (storagePath : string) (w : world) :
  let getting := {| message := "Getting database"; step := 1; maxStep := 4 |} in
  let run := acquire_and_unpack h databaseUrl requestHeaders storagePath w in
  (exists more, events (snd run) = events w ++ Progress getting :: more) /\
  (forall unzipPath, fst run = Ok unzipPath ->
     exists before zipFile,
       events (snd run) = events w ++ Progress getting :: before ++
         [Progress {| message := "Unzipping into " +++ basename_of unzipPath;
                      step := 9; maxStep := 10 |};
          DatabaseUnbundle zipFile unzipPath] /\
       (forall u, Uri_parse h false databaseUrl = Some u -> scheme u = "file" ->
                  before = [])).
Proof.
  intros getting run. subst run. unfold acquire_and_unpack.
  rewrite (bind_ok _ _ w {| fs := fs w; events := events w ++ [Progress getting] |} tt)
    by reflexivity.
  set (w0 := {| fs := fs w; events := events w ++ [Progress getting] |}).
  assert (Hw0 : events w0 = events w ++ [Progress getting]) by reflexivity.
  clearbody w0.
  assert (Hshape : forall more, (events w ++ [Progress getting]) ++ more
                                = events w ++ Progress getting :: more).
  { intro more. now rewrite <- app_assoc. }
  destruct (storagePath =? "").
  { cbn. rewrite Hw0. split; [exists []; reflexivity | discriminate]. }
  rewrite (bind_ok _ _ w0 w0 tt) by reflexivity.
  pose proof (ensureDir_silent (resolve storagePath) w0) as Hdir.
  destruct (ensureDir (resolve storagePath) w0) as [[[] | e] w2] eqn:Edir;
    cbn [snd] in Hdir;
    [rewrite (bind_ok _ _ _ _ _ Edir) | rewrite (bind_throw _ _ _ _ _ Edir)].
  2: { cbn. rewrite Hdir, Hw0. split; [exists []; reflexivity | discriminate]. }
  pose proof (getStorageFolder_silent h storagePath databaseUrl w2) as Hfolder.
  destruct (getStorageFolder h storagePath databaseUrl w2) as [[unzipPath | e] w3]
    eqn:Efolder; cbn [snd] in Hfolder;
    [rewrite (bind_ok _ _ _ _ _ Efolder) | rewrite (bind_throw _ _ _ _ _ Efolder)].
  2: { cbn. rewrite Hfolder, Hdir, Hw0. split; [exists []; reflexivity | discriminate]. }
  pose proof (isFile_silent h databaseUrl w3) as Hlocal.
  destruct (isFile h databaseUrl w3) as [[local | e] w4] eqn:Elocal;
    cbn [snd] in Hlocal;
    [rewrite (bind_ok _ _ _ _ _ Elocal) | rewrite (bind_throw _ _ _ _ _ Elocal)].
  2: { cbn. rewrite Hlocal, Hfolder, Hdir, Hw0.
       split; [exists []; reflexivity | discriminate]. }
  assert (Hw4 : events w4 = events w ++ [Progress getting]) by congruence.
  destruct local.
  - destruct (grows_readAndUnzip h databaseUrl unzipPath w4) as [more Hmore].
    destruct (readAndUnzip h databaseUrl unzipPath w4) as [[[] | e] w5] eqn:Eunzip;
      cbn [snd] in Hmore;
      [rewrite (bind_ok _ _ _ _ _ Eunzip) | rewrite (bind_throw _ _ _ _ _ Eunzip)];
      cbn [fst snd ret]; rewrite Hmore, Hw4.
    + split; [exists more; apply Hshape |].
      intros p Hp. injection Hp as <-.
      apply readAndUnzip_reports in Eunzip as [zipFile Hreports].
      exists [], zipFile. split; [| reflexivity].
      rewrite <- Hw4, <- Hmore, Hreports, Hw4. apply Hshape.
    + split; [exists more; apply Hshape | discriminate].
  - destruct (grows_fetchAndUnzip h databaseUrl requestHeaders unzipPath w4)
      as [more Hmore].
    destruct (fetchAndUnzip h databaseUrl requestHeaders unzipPath w4)
      as [[[] | e] w5] eqn:Efetch;
      cbn [snd] in Hmore;
      [rewrite (bind_ok _ _ _ _ _ Efetch) | rewrite (bind_throw _ _ _ _ _ Efetch)];
      cbn [fst snd ret]; rewrite Hmore, Hw4.
    + split; [exists more; apply Hshape |].
      intros p Hp. injection Hp as <-.
      apply fetchAndUnzip_reports in Efetch as (before & zipFile & Hreports).
      exists before, zipFile. split.
      * rewrite <- Hw4, <- Hmore, Hreports, Hw4. apply Hshape.
      * intros u Hparse Hscheme. unfold isFile, parse_uri in Elocal.
        rewrite Hparse in Elocal. cbn in Elocal. rewrite Hscheme in Elocal.
        discriminate.
    + split; [exists more; apply Hshape | discriminate].
Qed.

(** C9, as the code has it.  The reports of one import are: "Getting
    database" (1 of 4); then the reports of transport and unpacking, on
    scales of their own; then, if the import gets that far, "Opening
    database" (3 of 4) and "Validating and fixing source location" (4 of
    4).  When the import succeeds both closing reports are there and the
    last report before them is "Unzipping" at step 9 of 10, so the steps
    end in 9, 3, 4; for a local archive they are exactly 1, 9, 3, 4. *)
Theorem progress_steps_of_an_import (h : Host) (databaseUrl : string)
  (requestHeaders : list (string * string)) (storagePath : string)
  (nameOverride : option string) (origin : DatabaseOrigin)
  (makeSelected addSourceArchiveFolder : bool) (w : world) :
  let getting := {| message := "Getting database"; step := 1; maxStep := 4 |} in
  let opening := {| message := "Opening database"; step := 3; maxStep := 4 |} in
  let validating := {| message := "Validating and fixing source location";
                       step := 4; maxStep := 4 |} in
  let run := databaseArchiveFetcher h databaseUrl requestHeaders storagePath
               nameOverride origin makeSelected addSourceArchiveFolder w in
  let unpacked := snd (acquire_and_unpack h databaseUrl requestHeaders storagePath w) in
  exists nested tail,
    progress_reports (events unpacked)
    = progress_reports (events w) ++ getting :: nested /\
    progress_reports (events (snd run))
    = progress_reports (events w) ++ getting :: nested ++ tail /\
    (tail = [] \/ tail = [opening] \/ tail = [opening; validating]) /\
    (forall item, fst run = Ok item ->
       tail = [opening; validating] /\
       exists before,
         map step nested = before ++ [9] /\
         (forall u, Uri_parse h false databaseUrl = Some u -> scheme u = "file" ->
                    before = [])).
Proof.
  intros getting opening validating run unpacked. subst run unpacked.
  destruct (acquire_and_unpack_reports h databaseUrl requestHeaders storagePath w)
    as [[more Hmore] Hsuccess].
  fold getting in Hmore, Hsuccess.
  assert (Hnested : progress_reports
                      (events (snd (acquire_and_unpack h databaseUrl requestHeaders
                                      storagePath w)))
                    = progress_reports (events w) ++ getting :: progress_reports more).
  { rewrite Hmore, progress_reports_app. reflexivity. }
  unfold databaseArchiveFetcher.
  destruct (acquire_and_unpack h databaseUrl requestHeaders storagePath w)
    as [[unzipPath | e] w1] eqn:Hacquire; cbn [fst snd] in *.
  2: { rewrite (bind_throw _ _ _ _ _ Hacquire). cbn [fst snd].
       exists (progress_reports more), []. rewrite app_nil_r.
       split; [| split; [| split]]; auto. discriminate. }
  rewrite (bind_ok _ _ _ _ _ Hacquire).
  destruct (Hsuccess unzipPath eq_refl) as (before & zipFile & Hshape & Hlocal).
  assert (Hsteps : map step (progress_reports more)
                   = map step (progress_reports before) ++ [9]).
  { rewrite Hmore in Hshape. apply app_inv_head in Hshape.
    injection Hshape as ->. rewrite progress_reports_app, map_app. reflexivity. }
  assert (Htail : forall tail,
             progress_reports (events w1 ++ map Progress tail)
             = progress_reports (events w) ++ getting :: progress_reports more ++ tail).
  { intro tail. rewrite progress_reports_app, Hnested, <- app_assoc. cbn.
    do 3 f_equal. induction tail as [| p tail IH]; cbn; congruence. }
  unfold locate_normalize_register, findDirWithFile_at. run.
  destruct (lookup (fs w1) unzipPath) as [tree |]; cbv beta iota; cbn [snd events].
  2: { exists (progress_reports more), [opening].
       split; [| split; [| split]]; auto; [apply (Htail [opening]) | discriminate]. }
  destruct (findDirWithFile unzipPath tree [".dbinfo"; "codeql-database.yml"])
    as [dbPath |]; cbv beta iota; cbn [snd events].
  2: { exists (progress_reports more), [opening].
       split; [| split; [| split]]; auto; [apply (Htail [opening]) | discriminate]. }
  match goal with
  | |- context [ensureZippedSourceLocation h dbPath ?w0] =>
      pose proof (ensureZippedSourceLocation_silent h dbPath w0) as Hsilent;
      destruct (ensureZippedSourceLocation h dbPath w0) as [[[] | e] w2]
  end; cbn [fst snd events] in *.
  - exists (progress_reports more), [opening; validating].
    split; [| split; [| split]]; auto.
    + rewrite progress_reports_app, Hsilent, <- app_assoc.
      cbn [progress_reports]. rewrite app_nil_r. apply (Htail [opening; validating]).
    + intros item _. split; [reflexivity |].
      exists (map step (progress_reports before)). split; [exact Hsteps |].
      intros u Hparse Hscheme. now rewrite (Hlocal u Hparse Hscheme).
  - exists (progress_reports more), [opening; validating].
    split; [| split; [| split]]; auto; [| discriminate].
    rewrite Hsilent, <- app_assoc. apply (Htail [opening; validating]).
Qed.

Lemma progress_steps_of_an_import_witness :
  map step
    (progress_reports
       (events (snd (databaseArchiveFetcher Demo.offline "file:///tmp/db.zip" []
                       "/storage" None (OriginArchive "file:///tmp/db.zip") true true
                       (Demo.empty_world (disk_with_archive sample_unpacked))))))
  = [1; 9; 3; 4].
Proof.
  destruct (progress_steps_of_an_import Demo.offline "file:///tmp/db.zip" []
              "/storage" None (OriginArchive "file:///tmp/db.zip") true true
              (Demo.empty_world (disk_with_archive sample_unpacked)))
    as (nested & tail & _ & Hall & _ & Hsuccess).
  destruct (Hsuccess _ eq_refl) as (-> & before & Hnested & Hlocal).
  rewrite (Hlocal {| scheme := "file"; authority := ""; uri_path := "/tmp/db.zip" |}
             eq_refl eq_refl) in Hnested.
  rewrite Hall. cbn [events Demo.empty_world progress_reports app map step].
  rewrite map_app, Hnested. reflexivity.
Defined.

(** C9, the claim as written fails: the import of a local archive delivers
    the steps 1, 9, 3, 4 to the progress sink, and 9 is followed by 3. *)
Lemma local_import_steps_go_down :
  let run := importArchiveDatabase Demo.offline "file:///tmp/db.zip" "/storage"
               (Demo.empty_world (disk_with_archive sample_unpacked)) in
  (exists item, fst run = Ok (Some item)) /\
  map step (progress_reports (events (snd run))) = [1; 9; 3; 4] /\
  map maxStep (progress_reports (events (snd run))) = [4; 10; 4; 4] /\
  non_decreasing (map step (progress_reports (events (snd run)))) = false.
Proof. vm_compute. repeat split. eexists. reflexivity. Qed.

(** * Further properties of the code *)

(** ** More on the destination folder *)

Lemma avoid_existing_result exists_ realpath lastName :
  forall d c p,
    c + d = 100 ->
    (forall j, j < c -> exists_ (candidate realpath lastName j) = true) ->
    avoid_existing exists_ realpath lastName c (candidate realpath lastName c) = Ok p ->
    exists k,
      k <= 100 /\ p = candidate realpath lastName k /\
      exists_ (candidate realpath lastName k) = false /\
      (forall j, j < k -> exists_ (candidate realpath lastName j) = true).
Proof.
  induction d as [| d IH]; intros c p Hsum Hbelow Hrun;
    rewrite avoid_existing_equation_1 in Hrun.
  - destruct (exists_ (candidate realpath lastName c)) eqn:Hc.
    + destruct (gt_dec (S c) 100); [discriminate | lia].
    + injection Hrun as <-. exists c. repeat split; auto. lia.
  - destruct (exists_ (candidate realpath lastName c)) eqn:Hc.
    + destruct (gt_dec (S c) 100) as [| Hle]; [discriminate |].
      change (join realpath (lastName +++ "-" +++ string_of_nat (S c)))
        with (candidate realpath lastName (S c)) in Hrun.
      apply (IH (S c)); auto; [lia |].
      intros j Hj. destruct (Nat.eq_dec j c) as [-> | Hne]; [exact Hc |].
      apply Hbelow. lia.
    + injection Hrun as <-. exists c. repeat split; auto. lia.
Qed.

(** A successful [getStorageFolder], taken apart. *)
Lemma getStorageFolder_inv (h : Host) (storagePath urlStr : string) (w w' : world)
  (folderName : path) :
  getStorageFolder h storagePath urlStr w = (Ok folderName, w') ->
  w' = w /\
  pathExists (fs w) (resolve storagePath) = true /\
  pathExists (fs w) folderName = false /\
  exists u k,
    Uri_parse h false urlStr = Some u /\
    k <= 100 /\
    folderName = candidate (resolve storagePath) (folder_base (uri_path u)) k /\
    (forall j, j < k ->
       pathExists (fs w)
         (candidate (resolve storagePath) (folder_base (uri_path u)) j) = true).
Proof.
  unfold getStorageFolder, parse_uri, fs_realpath.
  destruct (Uri_parse h false urlStr) as [u |]; run; [| discriminate].
  destruct (pathExists (fs w) (resolve storagePath)) eqn:Hroot; run; [| discriminate].
  destruct (avoid_existing _ _ _ _ _) as [p | e] eqn:Hloop; [| discriminate].
  intro H. injection H as <- <-.
  apply (avoid_existing_result (pathExists (fs w)) (resolve storagePath)
           (folder_base (uri_path u)) 100 0) in Hloop as (k & Hk & -> & Hfree & Hbelow);
    [| reflexivity | intros j Hj; lia].
  split; [reflexivity |]. split; [reflexivity |]. split; [exact Hfree |].
  exists u, k. auto.
Qed.

(** X1.  What [getStorageFolder] returns does not exist: it is the first of the
    names [base], [base-1], ..., [base-100] that is free, and the call
    changes nothing. *)
Theorem getStorageFolder_returns_first_free_name (h : Host)
  (storagePath urlStr : string) (w w' : world) (folderName : path) :
  getStorageFolder h storagePath urlStr w = (Ok folderName, w') ->
  w' = w /\
  pathExists (fs w) folderName = false /\
  exists u k,
    Uri_parse h false urlStr = Some u /\
    k <= 100 /\
    folderName = candidate (resolve storagePath) (folder_base (uri_path u)) k /\
    (forall j, j < k ->
       pathExists (fs w)
         (candidate (resolve storagePath) (folder_base (uri_path u)) j) = true).
Proof.
  intro Hrun. apply getStorageFolder_inv in Hrun as (Hw & _ & Hfree & Hname).
  auto.
Qed.

Lemma getStorageFolder_returns_first_free_name_witness :
  pathExists (crowded_storage 3) ["storage"; "db-3"] = false /\
  exists u k,
    Demo.parse false "https://example.com/db.zip" = Some u /\ k <= 100 /\
    ["storage"; "db-3"] = candidate ["storage"] (folder_base (uri_path u)) k /\
    (forall j, j < k ->
       pathExists (crowded_storage 3)
         (candidate ["storage"] (folder_base (uri_path u)) j) = true).
Proof.
  apply (getStorageFolder_returns_first_free_name Demo.offline "/storage"
           "https://example.com/db.zip" (Demo.empty_world (crowded_storage 3))
           (Demo.empty_world (crowded_storage 3)) ["storage"; "db-3"]).
  reflexivity.
Defined.

Lemma string_length_append (a b : string) :
  String.length (a +++ b) = String.length a + String.length b.
Proof. induction a as [| c a IH]; cbn; [reflexivity | now rewrite IH]. Qed.

Lemma substring_length_le (s : string) : forall m,
  String.length (substring 0 m s) <= m.
Proof.
  induction s as [| c s IH]; intros [| m]; cbn; try lia.
  specialize (IH m). lia.
Qed.

Lemma folder_base_length (urlPath : string) :
  String.length (folder_base urlPath) <= 250.
Proof.
  unfold folder_base.
  pose proof (substring_length_le (basename urlPath) 250) as Hcut.
  destruct (endsWith _ ".zip"); [| exact Hcut].
  match goal with
  | |- String.length (substring 0 ?m ?s) <= _ =>
      pose proof (substring_length_le s m)
  end. lia.
Qed.

Lemma counter_has_three_digits (k : nat) :
  k <= 100 -> String.length (string_of_nat k) <= 3.
Proof.
  intro Hk.
  assert (Hall : forallb (fun k => String.length (string_of_nat k) <=? 3)%nat
                   (seq 0 101) = true) by (vm_compute; reflexivity).
  rewrite forallb_forall in Hall. apply Nat.leb_le, Hall, in_seq. lia.
Qed.

Lemma numbered_name_is_plain (base digits : string) :
  plain_name (base +++ "-" +++ digits) = true.
Proof.
  unfold plain_name.
  destruct base as [| c1 [| c2 [| c3 base]]]; cbn;
    repeat match goal with
           | |- context [Ascii.eqb ?a ?b] => destruct (Ascii.eqb a b) eqn:?
           | H : Ascii.eqb _ _ = true |- _ => apply Ascii.eqb_eq in H; subst
           end; cbn; try reflexivity; try discriminate.
Qed.

Lemma join_plain_name (dir : path) (name : string) :
  plain_name name = true -> join dir name = dir ++ [name].
Proof.
  unfold plain_name, join. intro H. apply negb_true_iff in H.
  apply orb_false_iff in H as [H H2]. apply orb_false_iff in H as [H0 H1].
  now rewrite H0, H1, H2.
Qed.

Lemma lookup_app (p q : path) : forall n,
  lookup n (p ++ q) = match lookup n p with
                      | Some m => lookup m q
                      | None => None
                      end.
Proof.
  induction p as [| c p IH]; intros n; [reflexivity |].
  destruct n as [b | z | es]; cbn; try reflexivity.
  destruct (assoc c es); auto.
Qed.

(** What lies above an existing path exists. *)
Lemma pathExists_removelast (root : node) (p : path) :
  pathExists root p = true -> pathExists root (removelast p) = true.
Proof.
  destruct p as [| c p] using rev_ind; [auto |].
  rewrite removelast_last. unfold pathExists. rewrite lookup_app.
  now destruct (lookup root p).
Qed.

(** X2.  The folder that [getStorageFolder] returns lies directly inside the
    storage root, never at or above it, whatever the address; and its name
    has at most 254 characters: the base cut to 250, a dash and a counter of
    at most three digits. *)
Theorem getStorageFolder_stays_in_storage (h : Host) (storagePath urlStr : string)
  (w w' : world) (folderName : path) :
  getStorageFolder h storagePath urlStr w = (Ok folderName, w') ->
  exists name,
    folderName = resolve storagePath ++ [name] /\
    plain_name name = true /\
    String.length name <= 254.
Proof.
  intro Hrun.
  apply getStorageFolder_inv in Hrun
    as (_ & Hroot & Hfree & u & k & _ & Hk & -> & _).
  pose proof (folder_base_length (uri_path u)) as Hbase.
  set (lastName := folder_base (uri_path u)) in *.
  destruct k as [| k]; cbn [candidate] in *.
  - exists lastName. destruct (plain_name lastName) eqn:Hplain.
    + rewrite join_plain_name by assumption. repeat split; auto; lia.
    + exfalso. unfold plain_name in Hplain. apply negb_false_iff in Hplain.
      unfold join in Hfree.
      destruct ((lastName =? "") || (lastName =? ".")) eqn:Hdot; [congruence |].
      cbn [orb] in Hplain. rewrite Hplain in Hfree.
      apply pathExists_removelast in Hroot. congruence.
  - exists (lastName +++ "-" +++ string_of_nat (S k)).
    rewrite join_plain_name by apply numbered_name_is_plain.
    split; [reflexivity |]. split; [apply numbered_name_is_plain |].
    rewrite !string_length_append.
    pose proof (counter_has_three_digits (S k) Hk). cbn [String.length]. lia.
Qed.

Lemma getStorageFolder_stays_in_storage_witness :
  exists name,
    ["storage"; "db-3"] = resolve "/storage" ++ [name] /\
    plain_name name = true /\ String.length name <= 254.
Proof.
  apply (getStorageFolder_stays_in_storage Demo.offline "/storage"
           "https://example.com/db.zip" (Demo.empty_world (crowded_storage 3))
           (Demo.empty_world (crowded_storage 3)) ["storage"; "db-3"]).
  reflexivity.
Defined.

(** ** More on the locator *)

Lemma assoc_In (c : string) (m : node) (es : list (string * node)) :
  assoc c es = Some m -> In (c, m) es.
Proof.
  induction es as [| [c' m'] rest IH]; cbn; [discriminate |].
  destruct (c =? c') eqn:E.
  - apply String.eqb_eq in E. subst c'. intro H. injection H as ->. now left.
  - intro H. right. auto.
Qed.

Lemma assoc_distinct (c : string) (m : node) (es : list (string * node)) :
  distinct (map fst es) = true -> In (c, m) es -> assoc c es = Some m.
Proof.
  induction es as [| [c' m'] rest IH]; cbn; [intros _ [] |].
  intros Hdistinct [Hhead | Hrest].
  - injection Hhead as -> ->. now rewrite String.eqb_refl.
  - apply andb_prop in Hdistinct as [Hfresh Hdistinct].
    destruct (c =? c') eqn:E; [| auto].
    apply String.eqb_eq in E. subst c'. apply negb_true_iff in Hfresh.
    assert (Hin : existsb (String.eqb c) (map fst rest) = true).
    { apply existsb_exists. exists c. split; [| apply String.eqb_refl].
      apply (in_map fst) in Hrest. exact Hrest. }
    congruence.
Qed.

Lemma first_result_some (dir : path) (toFind : list string)
  (es : list (string * node)) (p : path) :
  first_result dir toFind es = Some p ->
  exists file child,
    In (file, child) es /\ findDirWithFile (join dir file) child toFind = Some p.
Proof.
  induction es as [| [file child] rest IH]; cbn; [discriminate |].
  destruct (findDirWithFile (join dir file) child toFind) as [r |] eqn:E.
  - intro H. injection H as ->. exists file, child. auto.
  - intro H. destruct (IH H) as (f & c & Hin & Hfound). exists f, c. auto.
Qed.

Lemma first_result_nothing (dir : path) (toFind : list string)
  (es : list (string * node)) :
  first_result dir toFind es = None ->
  forall file child, In (file, child) es ->
                     findDirWithFile (join dir file) child toFind = None.
Proof.
  induction es as [| [f c] rest IH]; cbn; [intros _ ? ? [] |].
  destruct (findDirWithFile (join dir f) c toFind) eqn:E; [discriminate |].
  intros H file child [Hhead | Hrest]; [now injection Hhead as <- <- | auto].
Qed.

(** X4.  What the locator returns is really there.  In a tree whose listings
    have plain, distinct names, a result is the search root followed by the
    names of a descent through the tree, and what lies at the end of the
    descent is a directory with a child named as a marker. *)
Theorem findDirWithFile_finds_a_database_root (toFind : list string) (n : node) :
  forall (dir result : path),
    well_listed n = true ->
    findDirWithFile dir n toFind = Some result ->
    exists below entries,
      result = dir ++ below /\
      lookup n below = Some (Dir entries) /\
      existsb (fun marker => includes (map fst entries) marker) toFind = true.
Proof.
  induction n as [b | z _ | es IH] using node_nested_ind; intros dir result Hwell;
    try discriminate.
  rewrite findDirWithFile_Dir. destruct (bears_marker es toFind) eqn:Hmarker.
  - intro H. injection H as <-. exists [], es. rewrite app_nil_r. auto.
  - intro Hfound. apply first_result_some in Hfound as (file & child & Hin & Hfound).
    cbn [well_listed] in Hwell.
    apply andb_prop in Hwell as [Hwell Hchildren].
    apply andb_prop in Hwell as [Hplain Hdistinct].
    rewrite forallb_forall in Hplain, Hchildren. rewrite Forall_forall in IH.
    specialize (Hplain _ Hin). specialize (Hchildren _ Hin). cbn in *.
    rewrite (join_plain_name dir file Hplain) in Hfound.
    destruct (IH _ Hin _ _ Hchildren Hfound) as (below & entries & -> & Hthere & Hbears).
    exists (file :: below), entries. rewrite <- app_assoc. repeat split; auto.
    cbn. now rewrite (assoc_distinct _ _ _ Hdistinct Hin).
Qed.

Lemma findDirWithFile_finds_a_database_root_witness :
  exists below entries,
    ["storage"; "db"; "nested"] = ["storage"; "db"] ++ below /\
    lookup sample_unpacked below = Some (Dir entries) /\
    existsb (fun marker => includes (map fst entries) marker)
      [".dbinfo"; "codeql-database.yml"] = true.
Proof.
  apply (findDirWithFile_finds_a_database_root [".dbinfo"; "codeql-database.yml"]
           sample_unpacked ["storage"; "db"] ["storage"; "db"; "nested"]);
    reflexivity.
Defined.

(** X5.  "Not found" is the truth: when the locator finds nothing, no directory
    anywhere in the tree has a child named as a marker. *)
Theorem findDirWithFile_nothing_means_no_marker (toFind : list string) (n : node) :
  forall (dir below : path) (entries : list (string * node)),
    findDirWithFile dir n toFind = None ->
    lookup n below = Some (Dir entries) ->
    existsb (fun marker => includes (map fst entries) marker) toFind = false.
Proof.
  induction n as [b | z _ | es IH] using node_nested_ind;
    intros dir below entries Hnone Hthere.
  - destruct below; discriminate.
  - destruct below; discriminate.
  - rewrite findDirWithFile_Dir in Hnone.
    destruct (bears_marker es toFind) eqn:Hmarker; [discriminate |].
    destruct below as [| c below]; cbn in Hthere.
    + injection Hthere as <-. exact Hmarker.
    + destruct (assoc c es) as [m |] eqn:Hm; [| discriminate].
      apply assoc_In in Hm. rewrite Forall_forall in IH.
      apply (IH _ Hm (join dir c) below entries); auto.
      apply (first_result_nothing dir toFind es Hnone c m Hm).
Qed.

Lemma findDirWithFile_nothing_means_no_marker_witness :
  existsb (fun marker => includes (map fst [("index.html", File "<html>")]) marker)
    [".dbinfo"] = false.
Proof.
  apply (findDirWithFile_nothing_means_no_marker [".dbinfo"] sample_unpacked
           ["storage"; "db"] ["docs"] [("index.html", File "<html>")]);
    reflexivity.
Defined.

(** ** More on the source archive *)

Lemma write_cons (es : list (string * node)) (x : string) (p : path) (v : node) :
  p <> [] ->
  write (Dir es) (x :: p) v =
  match assoc x es with
  | Some m => match write m p v with
              | Some m' => Some (Dir (put x m' es))
              | None => None
              end
  | None => None
  end.
Proof. destruct p; [congruence | reflexivity]. Qed.

Lemma remove_cons (es : list (string * node)) (x : string) (p : path) :
  p <> [] ->
  remove (Dir es) (x :: p) =
  match assoc x es with
  | Some m => Dir (put x (remove m p) es)
  | None => Dir es
  end.
Proof. destruct p; [congruence | reflexivity]. Qed.

(** A write is not seen from a path that parts ways with the written one. *)
Lemma lookup_write_diverge (common : path) (a b : string) (r1 r2 : path) (v : node) :
  a <> b -> forall n n',
  write n (common ++ a :: r1) v = Some n' ->
  lookup n' (common ++ b :: r2) = lookup n (common ++ b :: r2).
Proof.
  intro Hne. induction common as [| c common IH]; intros [bytes | z | es] n' H;
    try discriminate.
  - cbn [app] in *. destruct r1 as [| x r1].
    + cbn in H. injection H as <-. cbn. rewrite assoc_put_other; auto.
    + rewrite write_cons in H by discriminate.
      destruct (assoc a es) as [m |]; [| discriminate].
      destruct (write m (x :: r1) v) as [m' |]; [| discriminate].
      injection H as <-. cbn. rewrite assoc_put_other; auto.
  - rewrite <- app_comm_cons, write_cons in H by (now destruct common).
    destruct (assoc c es) as [m |] eqn:Hm; [| discriminate].
    destruct (write m (common ++ a :: r1) v) as [m' |] eqn:Hw; [| discriminate].
    injection H as <-. cbn. rewrite assoc_put_same, Hm. eauto.
Qed.

(** Nor is a removal. *)
Lemma lookup_remove_diverge (common : path) (a b : string) (r1 r2 : path) :
  a <> b -> forall n,
  lookup (remove n (common ++ a :: r1)) (common ++ b :: r2)
  = lookup n (common ++ b :: r2).
Proof.
  intro Hne. induction common as [| c common IH]; intros [bytes | z | es];
    try reflexivity.
  - cbn [app]. destruct r1 as [| x r1].
    + cbn. rewrite assoc_del_other; auto.
    + rewrite remove_cons by discriminate.
      destruct (assoc a es) as [m |]; [| reflexivity].
      cbn. rewrite assoc_put_other; auto.
  - rewrite <- !app_comm_cons, remove_cons by (now destruct common).
    destruct (assoc c es) as [m |] eqn:Hm; [| reflexivity].
    cbn. now rewrite assoc_put_same, Hm, IH.
Qed.

(** X6.  [ensureZippedSourceLocation] touches nothing but [src] and [src.zip]:
    whether it succeeds or fails, every path that parts ways with both holds
    afterwards what it held before, and no event is recorded. *)
Theorem ensureZippedSourceLocation_touches_nothing_else (h : Host)
  (databasePath : path) (w : world) (q : path) :
  diverge (databasePath ++ ["src"]) q ->
  diverge (databasePath ++ ["src.zip"]) q ->
  lookup (fs (snd (ensureZippedSourceLocation h databasePath w))) q = lookup (fs w) q
  /\ events (snd (ensureZippedSourceLocation h databasePath w)) = events w.
Proof.
  intros Hsrc Hzip. split; [| apply ensureZippedSourceLocation_silent].
  rewrite ensureZippedSourceLocation_run.
  destruct (pathExists (fs w) (databasePath ++ ["src"])) eqn:Hexists; [| reflexivity].
  destruct (negb (pathExists (fs w) (databasePath ++ ["src.zip"]))); [| reflexivity].
  destruct (zip_then_remove h databasePath w Hexists)
    as (content & root & _ & Hroot & ->).
  destruct Hzip as (c1 & a1 & b1 & r1 & s1 & Hp1 & Hq1 & Hne1).
  destruct Hsrc as (c2 & a2 & b2 & r2 & s2 & Hp2 & Hq2 & Hne2).
  assert (Hwritten : lookup root q = lookup (fs w) q).
  { rewrite Hp1 in Hroot. rewrite Hq1.
    apply (lookup_write_diverge c1 a1 b1 r1 s1 _ Hne1 _ _ Hroot). }
  destruct (remove_refused h (databasePath ++ ["src"])); cbn [snd fs].
  - exact Hwritten.
  - rewrite <- Hwritten. rewrite Hp2. rewrite Hq2 at 1 2.
    apply lookup_remove_diverge. exact Hne2.
Qed.

Lemma ensureZippedSourceLocation_touches_nothing_else_witness :
  lookup (fs (snd (ensureZippedSourceLocation Demo.offline ["nested"]
                     (Demo.empty_world sample_unpacked))))
    ["nested"; "codeql-database.yml"]
  = Some (File "name: db").
Proof.
  refine (proj1 (ensureZippedSourceLocation_touches_nothing_else Demo.offline
                   ["nested"] (Demo.empty_world sample_unpacked)
                   ["nested"; "codeql-database.yml"] _ _)).
  - exists ["nested"], "src", "codeql-database.yml", [], [].
    repeat split. discriminate.
  - exists ["nested"], "src.zip", "codeql-database.yml", [], [].
    repeat split. discriminate.
Defined.

(** ** More on the resolution of a GitHub database *)

Lemma insert_item_permutation (h : Host) (x : QuickPickItem)
  (sorted : list QuickPickItem) :
  Permutation (insert_item h x sorted) (x :: sorted).
Proof.
  induction sorted as [| y rest IH]; cbn; [reflexivity |].
  destruct (localeCompare h (label x) (label y)); try reflexivity.
  rewrite IH. apply perm_swap.
Qed.

Lemma sort_items_permutation (h : Host) (items : list QuickPickItem) :
  Permutation (sort_items h items) items.
Proof.
  induction items as [| x items IH]; cbn; [reflexivity |].
  rewrite insert_item_permutation. now constructor.
Qed.

Lemma insert_item_sorted (h : Host) (x : QuickPickItem)
  (sorted : list QuickPickItem) :
  (forall s t, localeCompare h s t = Gt -> localeCompare h t s <> Gt) ->
  Sorted (in_label_order h) sorted ->
  Sorted (in_label_order h) (insert_item h x sorted).
Proof.
  intros Hasym. induction 1 as [| y rest Hrest IH Hhead]; cbn.
  - repeat constructor.
  - destruct (localeCompare h (label x) (label y)) eqn:Hxy.
    + repeat constructor; auto. unfold in_label_order. congruence.
    + repeat constructor; auto. unfold in_label_order. congruence.
    + constructor; [exact IH |].
      destruct Hhead as [| z rest Hyz]; cbn.
      * constructor. apply Hasym, Hxy.
      * destruct (localeCompare h (label x) (label z));
          constructor; auto; apply Hasym, Hxy.
Qed.

Lemma shown_item_is_listed (h : Host) (languages : list string)
  (item : QuickPickItem) :
  In item (sort_items h (map (language_item h) languages)) ->
  In (language item) languages.
Proof.
  intro Hin. apply (Permutation_in _ (sort_items_permutation h _)) in Hin.
  apply in_map_iff in Hin as (l & <- & Hl). exact Hl.
Qed.

(** X7.  The picker offers exactly the languages of the listing, each as often
    as it is listed; and when [localeCompare] never puts two labels each
    after the other, the items are shown in the order of their labels. *)
Theorem picker_offers_the_listed_languages (h : Host) (languages : list string) :
  let items := sort_items h (map (language_item h) languages) in
  Permutation (map language items) languages /\
  Forall (fun item => item = language_item h (language item)) items /\
  ((forall s t, localeCompare h s t = Gt -> localeCompare h t s <> Gt) ->
   Sorted (in_label_order h) items).
Proof.
  intros items. subst items. split; [| split].
  - rewrite (Permutation_map language (sort_items_permutation h _)).
    rewrite map_map. cbn. now rewrite map_id.
  - apply Forall_forall. intros item Hin.
    apply (Permutation_in _ (sort_items_permutation h _)) in Hin.
    apply in_map_iff in Hin as (l & <- & _). reflexivity.
  - intro Hasym. induction languages as [| l languages IH]; cbn.
    + constructor.
    + apply insert_item_sorted; assumption.
Qed.

Lemma picker_offers_the_listed_languages_witness :
  Sorted (in_label_order Demo.offline)
    (sort_items Demo.offline (map (language_item Demo.offline) ["python"; "java"; "go"])).
Proof.
  apply (picker_offers_the_listed_languages Demo.offline ["python"; "java"; "go"]).
  intros s t Hgt Hback. cbn in Hgt, Hback.
  rewrite String.compare_antisym, Hback in Hgt. discriminate.
Defined.

(** X8.  An answer taken from the items that were shown always resolves: the
    listing has a database of the picked language, and the first such
    database is returned.  The "No database found" error needs an answer
    from outside the list. *)
Theorem picked_language_resolves (h : Host) (nwo : string)
  (requested : option string) (w : world) (response : list CodeqlDatabase)
  (item : QuickPickItem) :
  let owner := nth_error (segments nwo) 0 in
  let repo := nth_error (segments nwo) 1 in
  let items := sort_items h (map (language_item h) (map db_language response)) in
  listCodeqlDatabases h owner repo = Ok response ->
  falsy requested || negb (includes (map db_language response) (text_of requested))
  = true ->
  2 <= List.length response ->
  showQuickPick h items = Some item ->
  In item items ->
  language item <> "" ->
  exists db,
    find (fun db => db_language db =? language item) response = Some db /\
    fst (convertGithubNwoToDatabaseUrl h nwo requested w)
    = Ok (Some (selected_database owner repo db)) /\
    events (snd (convertGithubNwoToDatabaseUrl h nwo requested w))
    = events w ++
      [ListCodeqlDatabases owner repo;
       Progress {| message := "Choose language"; step := 2; maxStep := 2 |};
       ShowQuickPick items].
Proof.
  intros owner repo items Hlisting Hprompt Hmany Hpick Hshown Hnamed.
  pose proof (shown_item_is_listed h _ item Hshown) as Hlisted.
  assert (Hincluded : includes (map db_language response) (language item) = true).
  { apply existsb_exists. exists (language item). split; [exact Hlisted |].
    apply String.eqb_refl. }
  destruct (includes_find response _ Hincluded) as [db Hdb]. exists db.
  split; [exact Hdb |].
  destruct response as [| db1 [| db2 rest]]; cbn [List.length] in Hmany; try lia.
  unfold convertGithubNwoToDatabaseUrl. run. fold owner repo.
  rewrite Hlisting. cbv beta iota. rewrite Hprompt.
  unfold promptForLanguage. cbn [map] in *. run. fold items.
  rewrite Hpick. run. cbn [falsy text_of].
  apply String.eqb_neq in Hnamed. rewrite Hnamed.
  unfold database_for. rewrite Hdb. run. split; [reflexivity |].
  now rewrite <- !app_assoc.
Qed.

Lemma picked_language_resolves_witness :
  fst (convertGithubNwoToDatabaseUrl (github_host [python_db; java_db] pick_first)
         "o/r" None (Demo.empty_world empty_disk))
  = Ok (Some (selected_database (Some "o") (Some "r") java_db)).
Proof.
  destruct (picked_language_resolves (github_host [python_db; java_db] pick_first)
              "o/r" None (Demo.empty_world empty_disk) [python_db; java_db]
              {| label := "java"; description := "java"; language := "java" |}
              eq_refl eq_refl (le_n 2) eq_refl (or_introl eq_refl))
    as (db & Hdb & Hrun & _).
  - discriminate.
  - cbn in Hdb. injection Hdb as <-. exact Hrun.
Defined.

(** X9.  A repository without databases: the resolution reports "Choose
    language", shows no picker, writes "No databases found" to the log and
    fails with "Unable to get database", whatever language was asked for. *)
Theorem empty_listing_fails_without_picker (h : Host) (nwo : string)
  (requested : option string) (w : world) :
  let owner := nth_error (segments nwo) 0 in
  let repo := nth_error (segments nwo) 1 in
  listCodeqlDatabases h owner repo = Ok [] ->
  convertGithubNwoToDatabaseUrl h nwo requested w
  = (Throw (Error ("Unable to get database for '" +++ nwo +++ "'")),
     {| fs := fs w;
        events := events w ++
          [ListCodeqlDatabases owner repo;
           Progress {| message := "Choose language"; step := 2; maxStep := 2 |};
           Log "Error: No databases found"] |}).
Proof.
  intros owner repo Hlisting.
  unfold convertGithubNwoToDatabaseUrl. run. fold owner repo.
  rewrite Hlisting. cbv beta iota. cbn [map includes existsb negb].
  rewrite orb_true_r. unfold promptForLanguage. run.
  now rewrite <- !app_assoc.
Qed.

Lemma empty_listing_fails_without_picker_witness :
  fst (convertGithubNwoToDatabaseUrl (github_host [] pick_first) "o/r" (Some "python")
         (Demo.empty_world empty_disk))
  = Throw (Error "Unable to get database for 'o/r'").
Proof.
  now rewrite (empty_listing_fails_without_picker (github_host [] pick_first) "o/r"
                 (Some "python") (Demo.empty_world empty_disk) eq_refl).
Defined.

(** ** What a computation can do to the world

    A relation between the world before and the world after that is
    reflexive and transitive is kept by a computation when each of its steps
    keeps it. *)
Section EndsWithin.

Variable R : world -> world -> Prop.
Hypothesis R_refl : forall w, R w w.
Hypothesis R_trans : forall a b c, R a b -> R b c -> R a c.

Lemma within_ret {A} (a : A) (w : world) : ends_within R (ret a) w.
Proof. apply R_refl. Qed.

Lemma within_throw {A} (e : error) (w : world) : ends_within R (@throw A e) w.
Proof. apply R_refl. Qed.

Lemma within_lift {A} (r : result A) (w : world) : ends_within R (lift r) w.
Proof. apply R_refl. Qed.

Lemma within_bind {A B} (m : M A) (k : A -> M B) (w : world) :
  ends_within R m w ->
  (forall a w1, m w = (Ok a, w1) -> ends_within R (k a) w1) ->
  ends_within R (bind m k) w.
Proof.
  unfold ends_within, bind. intros Hm Hk.
  destruct (m w) as [[a | e] w1]; cbn [snd] in *; [| exact Hm].
  exact (R_trans _ _ _ Hm (Hk a w1 eq_refl)).
Qed.

Lemma within_try_catch {A} (m : M A) (handler : error -> M A) (w : world) :
  ends_within R m w ->
  (forall e w1, m w = (Throw e, w1) -> ends_within R (handler e) w1) ->
  ends_within R (try_catch m handler) w.
Proof.
  unfold ends_within, try_catch. intros Hm Hk.
  destruct (m w) as [[a | e] w1]; cbn [snd] in *; [exact Hm |].
  exact (R_trans _ _ _ Hm (Hk e w1 eq_refl)).
Qed.

Lemma within_fire_and_forget {A} (m : M A) (w : world) :
  ends_within R m w -> ends_within R (fire_and_forget m) w.
Proof. intro Hm. exact Hm. Qed.

End EndsWithin.

Lemma adds_only_refl (P : event -> Prop) (w : world) : adds_only P w w.
Proof. exists []. split; [now rewrite app_nil_r | constructor]. Qed.

Lemma adds_only_trans (P : event -> Prop) (a b c : world) :
  adds_only P a b -> adds_only P b c -> adds_only P a c.
Proof.
  intros (m1 & H1 & F1) (m2 & H2 & F2). exists (m1 ++ m2).
  split; [now rewrite H2, H1, app_assoc | now apply Forall_app].
Qed.

Lemma adds_only_weaken (P Q : event -> Prop) (a b : world) :
  (forall e, P e -> Q e) -> adds_only P a b -> adds_only Q a b.
Proof.
  intros HPQ (more & H & F). exists more. split; [exact H |].
  eapply Forall_impl; eauto.
Qed.

Lemma keeping_files_refl (P : event -> Prop) (w : world) :
  adds_only_keeping_files P w w.
Proof. split; [reflexivity | apply adds_only_refl]. Qed.

Lemma keeping_files_trans (P : event -> Prop) (a b c : world) :
  adds_only_keeping_files P a b -> adds_only_keeping_files P b c ->
  adds_only_keeping_files P a c.
Proof.
  intros [F1 H1] [F2 H2]. split; [congruence | eapply adds_only_trans; eauto].
Qed.

(** A step that records nothing. *)
Lemma silent_adds_only (P : event -> Prop) {A} (m : M A) (w : world) :
  events (snd (m w)) = events w -> ends_within (adds_only P) m w.
Proof. intro H. exists []. split; [now rewrite app_nil_r | constructor]. Qed.

Lemma emit_adds_only (P : event -> Prop) (e : event) (w : world) :
  P e -> ends_within (adds_only P) (emit e) w.
Proof. intro He. exists [e]. split; [reflexivity | now repeat constructor]. Qed.

Lemma emit_keeps_files (P : event -> Prop) (e : event) (w : world) :
  P e -> ends_within (adds_only_keeping_files P) (emit e) w.
Proof. intro He. split; [reflexivity | now apply emit_adds_only]. Qed.

(** Take a computation apart, for a relation with its two laws. *)
Ltac within Hrefl Htrans :=
  repeat match goal with
         | |- ends_within _ (bind _ _) _ =>
             apply (within_bind _ Htrans); [| intros ? ? ?]
         | |- ends_within _ (try_catch _ _) _ =>
             apply (within_try_catch _ Htrans); [| intros ? ? ?]
         | |- ends_within _ (fire_and_forget _) _ => apply within_fire_and_forget
         | |- ends_within _ (ret _) _ => apply Hrefl
         | |- ends_within _ (throw _) _ => apply Hrefl
         | |- ends_within _ (lift _) _ => apply Hrefl
         | |- ends_within _ (if ?x then _ else _) _ => destruct x eqn:?
         | |- ends_within _ (match ?x with _ => _ end) _ => destruct x eqn:?
         end.

Lemma convertGithubNwoToDatabaseUrl_within (h : Host) (nwo : string)
  (requested : option string) (w : world) :
  ends_within (adds_only_keeping_files resolving_event)
    (convertGithubNwoToDatabaseUrl h nwo requested) w.
Proof.
  unfold convertGithubNwoToDatabaseUrl, promptForLanguage, database_for, progress.
  cbv zeta.
  within (keeping_files_refl resolving_event) (keeping_files_trans resolving_event);
    now apply emit_keeps_files.
Qed.

Lemma convertGithubNwoToDatabaseUrl_asks (h : Host) (nwo : string)
  (requested : option string) (w : world) :
  ends_within (adds_only_keeping_files asking_event)
    (convertGithubNwoToDatabaseUrl h nwo requested) w.
Proof.
  unfold convertGithubNwoToDatabaseUrl, promptForLanguage, database_for, progress.
  cbv zeta.
  within (keeping_files_refl asking_event) (keeping_files_trans asking_event);
    now apply emit_keeps_files.
Qed.

(** X10.  The resolver only asks and reports: it leaves the file system as it
    is, and all it records are the request for the listing, progress
    reports, the picker and lines of the log.  So it downloads nothing,
    unpacks nothing, opens no database, shows no input box or message, runs
    no command and asks for no credentials. *)
Theorem resolver_only_asks (h : Host) (nwo : string) (requested : option string)
  (w : world) :
  let w' := snd (convertGithubNwoToDatabaseUrl h nwo requested w) in
  fs w' = fs w /\
  exists more,
    events w' = events w ++ more /\
    Forall (fun e => match e with
                     | ListCodeqlDatabases _ _ | Progress _ | ShowQuickPick _
                     | Log _ => True
                     | Fetch _ _ | DatabaseUnbundle _ _ | OpenDatabase _
                     | ShowInputBox _ | GetOctokit | OctokitAuth | Execute _
                     | Information _ => False
                     end) more.
Proof. exact (convertGithubNwoToDatabaseUrl_asks h nwo requested w). Qed.

(** ** What an import contacts *)

Lemma write_file_silent (p : path) (v : node) (w : world) :
  events (snd (write_file p v w)) = events w.
Proof. unfold write_file. now destruct (write (fs w) p v). Qed.

Lemma fs_remove_silent (h : Host) (p : path) (w : world) :
  events (snd (fs_remove h p w)) = events w.
Proof. unfold fs_remove. now destruct (remove_refused h p). Qed.

Section Reporting.

(** A kind of event that covers the reports and the local work of an
    import. *)
Variable P : event -> Prop.
Hypothesis P_progress : forall p, P (Progress p).
Hypothesis P_unbundle : forall zipFile unzipPath, P (DatabaseUnbundle zipFile unzipPath).
Hypothesis P_open : forall dbPath, P (OpenDatabase dbPath).

Variable h : Host.

(** Close the steps that [within] leaves: an event of the kind, or a step
    that records nothing. *)
Ltac leaf :=
  first
    [ apply emit_adds_only; solve [auto]
    | apply silent_adds_only;
      first [ reflexivity
            | apply write_file_silent
            | apply fs_remove_silent
            | apply ensureDir_silent
            | apply getStorageFolder_silent
            | apply isFile_silent
            | apply ensureZippedSourceLocation_silent ] ].

Lemma progress_all_adds_only (ps : list ProgressUpdate) (w : world) :
  ends_within (adds_only P) (progress_all ps) w.
Proof.
  unfold ends_within. rewrite progress_all_run. cbn.
  exists (map Progress ps). split; [reflexivity |].
  apply Forall_forall. intros e He. apply in_map_iff in He as (p & <- & _). auto.
Qed.

Lemma readAndUnzip_adds_only (zipUrl : string) (unzipPath : path) (w : world) :
  ends_within (adds_only P) (readAndUnzip h zipUrl unzipPath) w.
Proof.
  unfold readAndUnzip, parse_uri, databaseUnbundle, progress, read_fs.
  within (adds_only_refl P) (adds_only_trans P); leaf.
Qed.

Lemma fetchAndUnzip_adds_only (databaseUrl : string)
  (requestHeaders : list (string * string)) (unzipPath : path) (w : world) :
  P (Fetch databaseUrl requestHeaders) ->
  ends_within (adds_only P) (fetchAndUnzip h databaseUrl requestHeaders unzipPath) w.
Proof.
  intro P_fetch.
  unfold fetchAndUnzip, checkForFailingResponse, pipe_body, reportStreamProgress,
    progress.
  cbv zeta.
  within (adds_only_refl P) (adds_only_trans P);
    first [leaf | apply progress_all_adds_only | apply readAndUnzip_adds_only].
Qed.

Lemma locate_normalize_register_adds_only (unzipPath : path)
  (nameOverride : option string) (origin : DatabaseOrigin)
  (makeSelected addSourceArchiveFolder : bool) (w : world) :
  ends_within (adds_only P)
    (locate_normalize_register h unzipPath nameOverride origin makeSelected
       addSourceArchiveFolder) w.
Proof.
  unfold locate_normalize_register, findDirWithFile_at, progress, read_fs.
  within (adds_only_refl P) (adds_only_trans P); leaf.
Qed.

(** An import whose downloads, if any, are of the kind. *)
Lemma databaseArchiveFetcher_adds_only (databaseUrl : string)
  (requestHeaders : list (string * string)) (storagePath : string)
  (nameOverride : option string) (origin : DatabaseOrigin)
  (makeSelected addSourceArchiveFolder : bool) (w : world) :
  (P (Fetch databaseUrl requestHeaders) \/
   exists u, Uri_parse h false databaseUrl = Some u /\ scheme u = "file") ->
  ends_within (adds_only P)
    (databaseArchiveFetcher h databaseUrl requestHeaders storagePath nameOverride
       origin makeSelected addSourceArchiveFolder) w.
Proof.
  intro Hfetch.
  unfold databaseArchiveFetcher, acquire_and_unpack, progress.
  apply (within_bind _ (adds_only_trans P));
    [| intros; apply locate_normalize_register_adds_only].
  apply (within_bind _ (adds_only_trans P)); [leaf | intros _ w1 _].
  apply (within_bind _ (adds_only_trans P));
    [within (adds_only_refl P) (adds_only_trans P) | intros _ w2 _].
  apply (within_bind _ (adds_only_trans P)); [leaf | intros _ w3 _].
  apply (within_bind _ (adds_only_trans P)); [leaf | intros unzipPath w4 _].
  apply (within_bind _ (adds_only_trans P)); [leaf | intros local w5 Hlocal].
  apply (within_bind _ (adds_only_trans P));
    [| intros; apply (adds_only_refl P)].
  destruct local; [apply readAndUnzip_adds_only |].
  destruct Hfetch as [P_fetch | (u & Hparse & Hscheme)].
  - now apply fetchAndUnzip_adds_only.
  - unfold isFile, parse_uri in Hlocal. rewrite Hparse in Hlocal.
    cbn in Hlocal. rewrite Hscheme in Hlocal. discriminate.
Qed.

End Reporting.

(** X11.  An import downloads from no address but the one it was given, and sends
    no headers but those it was given; everything else it records is a
    report, the unpacking or the opening of the database. *)
Theorem import_downloads_only_the_given_address (h : Host) (databaseUrl : string)
  (requestHeaders : list (string * string)) (storagePath : string)
  (nameOverride : option string) (origin : DatabaseOrigin)
  (makeSelected addSourceArchiveFolder : bool) (w : world) :
  exists more,
    events (snd (databaseArchiveFetcher h databaseUrl requestHeaders storagePath
                   nameOverride origin makeSelected addSourceArchiveFolder w))
    = events w ++ more /\
    Forall (fun e =>
              match e with
              | Fetch url headers => url = databaseUrl /\ headers = requestHeaders
              | Progress _ | DatabaseUnbundle _ _ | OpenDatabase _ => True
              | _ => False
              end) more.
Proof.
  apply (databaseArchiveFetcher_adds_only
           (fun e => match e with
                     | Fetch url headers => url = databaseUrl /\ headers = requestHeaders
                     | Progress _ | DatabaseUnbundle _ _ | OpenDatabase _ => True
                     | _ => False
                     end)); cbn; auto.
Qed.

(** X12.  The import of a local archive, one whose address has the scheme [file],
    contacts nothing: no download, no call of the GitHub API. *)
Theorem local_import_contacts_nothing (h : Host) (databaseUrl : string) (u : Uri)
  (requestHeaders : list (string * string)) (storagePath : string)
  (nameOverride : option string) (origin : DatabaseOrigin)
  (makeSelected addSourceArchiveFolder : bool) (w : world) :
  Uri_parse h false databaseUrl = Some u ->
  scheme u = "file" ->
  exists more,
    events (snd (databaseArchiveFetcher h databaseUrl requestHeaders storagePath
                   nameOverride origin makeSelected addSourceArchiveFolder w))
    = events w ++ more /\
    Forall (fun e =>
              match e with
              | Progress _ | DatabaseUnbundle _ _ | OpenDatabase _ => True
              | _ => False
              end) more.
Proof.
  intros Hparse Hscheme.
  apply (databaseArchiveFetcher_adds_only
           (fun e => match e with
                     | Progress _ | DatabaseUnbundle _ _ | OpenDatabase _ => True
                     | _ => False
                     end)); cbn; eauto.
Qed.

Lemma local_import_contacts_nothing_witness :
  exists more,
    events (snd (databaseArchiveFetcher Demo.offline "file:///tmp/db.zip" []
                   "/storage" None (OriginArchive "file:///tmp/db.zip") true true
                   (Demo.empty_world (disk_with_archive sample_unpacked))))
    = [] ++ more /\
    Forall (fun e =>
              match e with
              | Progress _ | DatabaseUnbundle _ _ | OpenDatabase _ => True
              | _ => False
              end) more.
Proof.
  apply (local_import_contacts_nothing Demo.offline "file:///tmp/db.zip"
           {| scheme := "file"; authority := ""; uri_path := "/tmp/db.zip" |}
           [] "/storage" None (OriginArchive "file:///tmp/db.zip") true true
           (Demo.empty_world (disk_with_archive sample_unpacked)));
    reflexivity.
Defined.

(** ** More on the import from GitHub *)

Lemma try_catch_ok {A} (m : M A) (handler : error -> M A) (w w' : world) (a : A) :
  try_catch m handler w = (Ok a, w') ->
  m w = (Ok a, w') \/
  exists e w1, m w = (Throw e, w1) /\ handler e w1 = (Ok a, w').
Proof.
  unfold try_catch. destruct (m w) as [[a0 | e] w1]; eauto.
Qed.

(** A database that the resolver returns is an entry of the listing. *)
Lemma resolved_database_is_listed (h : Host) (nwo : string)
  (requested : option string) (w w' : world) (r : GithubDatabase) :
  convertGithubNwoToDatabaseUrl h nwo requested w = (Ok (Some r), w') ->
  exists response db,
    listCodeqlDatabases h (nth_error (segments nwo) 0) (nth_error (segments nwo) 1)
    = Ok response /\
    In db response /\
    r = selected_database (nth_error (segments nwo) 0) (nth_error (segments nwo) 1) db.
Proof.
  unfold convertGithubNwoToDatabaseUrl. cbv zeta. intro Hrun.
  apply try_catch_ok in Hrun as [Hbody | (e & w1 & _ & Hhandler)];
    [| unfold bind, emit, throw in Hhandler; discriminate].
  revert Hbody. run.
  destruct (listCodeqlDatabases h _ _) as [response | e]; cbv beta iota;
    [| discriminate].
  assert (Hfor : forall l w0 w2,
             database_for response (nth_error (segments nwo) 0)
               (nth_error (segments nwo) 1) l w0 = (Ok (Some r), w2) ->
             exists db, In db response /\
                        r = selected_database (nth_error (segments nwo) 0)
                              (nth_error (segments nwo) 1) db).
  { intros l w0 w2. unfold database_for.
    destruct (find _ response) as [db |] eqn:Hdb; [| discriminate].
    intro H. injection H as <- _. apply find_some in Hdb as [Hin _]. eauto. }
  destruct (falsy requested || _).
  - unfold promptForLanguage. run.
    destruct (map db_language response) as [| l1 [| l2 rest]]; run;
      try discriminate.
    + cbn [falsy]. destruct (l1 =? ""); [discriminate |].
      intro H. apply Hfor in H as (db & Hin & ->). eauto.
    + destruct (showQuickPick h _) as [item |]; run; cbn [falsy];
        [| discriminate].
      destruct (language item =? ""); [discriminate |].
      intro H. apply Hfor in H as (db & Hin & ->). eauto.
  - intro H. apply Hfor in H as (db & Hin & ->). eauto.
Qed.

(** X13.  The import from GitHub downloads only from an address that the listing
    of the repository gave, and sends with it the headers [Accept:
    application/zip] and [Authorization], the latter with the bearer token
    when there is one. *)
Theorem github_import_downloads_only_listed_databases (h : Host)
  (githubRepo storagePath : string) (requested : option string)
  (makeSelected addSourceArchiveFolder : bool) (w : world) :
  let nwo := if falsy (getNwoFromGitHubUrl h githubRepo) then githubRepo
             else text_of (getNwoFromGitHubUrl h githubRepo) in
  let owner := nth_error (segments nwo) 0 in
  let repo := nth_error (segments nwo) 1 in
  exists more,
    events (snd (downloadGitHubDatabase h githubRepo storagePath requested
                   makeSelected addSourceArchiveFolder w))
    = events w ++ more /\
    Forall (fun e =>
              match e with
              | Fetch url headers =>
                  (exists response db,
                      listCodeqlDatabases h owner repo = Ok response /\
                      In db response /\ url = db_url db) /\
                  headers = [("Accept", "application/zip");
                             ("Authorization",
                              match octokit_token h with
                              | Some token =>
                                  if token =? "" then "" else "Bearer " +++ token
                              | None => ""
                              end)]
              | _ => True
              end) more.
Proof.
  intros nwo owner repo.
  set (P := fun e => match e with
                     | Fetch url headers =>
                         (exists response db,
                             listCodeqlDatabases h owner repo = Ok response /\
                             In db response /\ url = db_url db) /\
                         headers = [("Accept", "application/zip");
                                    ("Authorization",
                                     match octokit_token h with
                                     | Some token =>
                                         if token =? "" then "" else "Bearer " +++ token
                                     | None => ""
                                     end)]
                     | _ => True
                     end).
  change (ends_within (adds_only P)
            (downloadGitHubDatabase h githubRepo storagePath requested makeSelected
               addSourceArchiveFolder) w).
  unfold downloadGitHubDatabase. fold nwo.
  destruct (negb (isValidGitHubNwo h nwo)); [apply (adds_only_refl P) |].
  apply (within_bind _ (adds_only_trans P)).
  { destruct (isCanary h); [now apply emit_adds_only | apply (adds_only_refl P)]. }
  intros _ w1 _.
  apply (within_bind _ (adds_only_trans P)).
  { apply (adds_only_weaken resolving_event P).
    - intros [] He; cbn in *; auto; contradiction.
    - apply convertGithubNwoToDatabaseUrl_within. }
  intros [r |] w2 Hresolved; [| apply (adds_only_refl P)].
  apply resolved_database_is_listed in Hresolved as (response & db & Hlisting & Hin & ->).
  unfold downloadGitHubDatabaseFromUrl. cbn [databaseUrl].
  apply (within_bind _ (adds_only_trans P)); [now apply emit_adds_only |].
  intros _ w3 _.
  apply (within_bind _ (adds_only_trans P)); [| intros; apply (adds_only_refl P)].
  apply databaseArchiveFetcher_adds_only; cbn; auto.
  left. split; [exists response, db; auto |].
  destruct (octokit_token h) as [token |]; reflexivity.
Qed.

Lemma downloadGitHubDatabase_abandoned (h : Host) (githubRepo storagePath : string)
  (requested : option string) (makeSelected addSourceArchiveFolder : bool)
  (w w' : world) :
  downloadGitHubDatabase h githubRepo storagePath requested makeSelected
    addSourceArchiveFolder w = (Ok None, w') ->
  adds_only_keeping_files resolving_event w w'.
Proof.
  unfold downloadGitHubDatabase.
  destruct (negb (isValidGitHubNwo h _)); [discriminate |].
  unfold bind at 1.
  set (w1 := snd ((if isCanary h then emit GetOctokit else ret tt) w)).
  assert (Hw1 : adds_only_keeping_files resolving_event w w1).
  { subst w1. destruct (isCanary h);
      [now apply emit_keeps_files | apply keeping_files_refl]. }
  assert (Hstep : (if isCanary h then emit GetOctokit else ret tt) w = (Ok tt, w1)).
  { subst w1. now destruct (isCanary h). }
  rewrite Hstep. unfold bind at 1.
  pose proof (convertGithubNwoToDatabaseUrl_within h
                (if falsy (getNwoFromGitHubUrl h githubRepo) then githubRepo
                 else text_of (getNwoFromGitHubUrl h githubRepo)) requested w1)
    as Hresolver.
  unfold ends_within in Hresolver.
  destruct (convertGithubNwoToDatabaseUrl h _ requested w1) as [[[r |] | e] w2];
    cbn [snd] in Hresolver; try discriminate.
  - unfold downloadGitHubDatabaseFromUrl, bind, emit.
    destruct (databaseArchiveFetcher h _ _ _ _ _ _ _ _) as [[item | e] w3];
      discriminate.
  - intro H. injection H as <-. eapply keeping_files_trans; eauto.
Qed.

(** X14.  An import that is given up leaves no trace.  When either prompt ends
    without a database and without an error, because the input box or the
    picker was dismissed, the file system is as it was, and nothing was
    downloaded, unpacked or opened. *)
Theorem abandoned_import_leaves_no_trace (h : Host) (storagePath : string)
  (requested : option string) (makeSelected addSourceArchiveFolder : bool)
  (w : world) :
  let untouched (w' : world) :=
    fs w' = fs w /\
    exists more,
      events w' = events w ++ more /\
      Forall (fun e => match e with
                       | Fetch _ _ | DatabaseUnbundle _ _ | OpenDatabase _ => False
                       | _ => True
                       end) more in
  (forall w',
      promptImportGithubDatabase h storagePath requested makeSelected
        addSourceArchiveFolder w = (Ok None, w') -> untouched w') /\
  (forall w',
      promptImportInternetDatabase h storagePath w = (Ok None, w') -> untouched w').
Proof.
  intro untouched.
  assert (Hgoal : forall w', untouched w' <-> adds_only_keeping_files resolving_event w w')
    by (intro; reflexivity).
  split; intros w' Hrun; apply Hgoal; clear Hgoal untouched.
  - revert Hrun. unfold promptImportGithubDatabase, askForGitHubRepo, progress. run.
    set (w0 := {| fs := fs w; events := _ |}).
    assert (Hasked : adds_only_keeping_files resolving_event w w0).
    { split; [reflexivity |]. eexists. split; [subst w0; cbn; now rewrite <- app_assoc |].
      repeat constructor. }
    clearbody w0.
    destruct (falsy (showInputBox h _)); cbv beta iota.
    + intro H. injection H as <-. exact Hasked.
    + match goal with
      | |- context [downloadGitHubDatabase ?a ?b ?c ?d ?e ?f w0] =>
          destruct (downloadGitHubDatabase a b c d e f w0)
            as [[[item |] | e0] w2] eqn:Hdownload
      end; cbv beta iota.
      * destruct makeSelected; discriminate.
      * intro H. injection H as <-.
        apply downloadGitHubDatabase_abandoned in Hdownload.
        eapply keeping_files_trans; eauto.
      * discriminate.
  - revert Hrun. unfold promptImportInternetDatabase. run.
    destruct (falsy (showInputBox h _)); cbv beta iota.
    + intro H. injection H as <-. split; [reflexivity |].
      exists [ShowInputBox "Enter URL of zipfile of database to download"].
      split; [reflexivity | repeat constructor].
    + destruct (validateUrl h _); cbv beta iota; [| discriminate].
      destruct (databaseArchiveFetcher h _ _ _ _ _ _ _ _) as [[item | e] w2];
        discriminate.
Qed.

Lemma abandoned_import_leaves_no_trace_witness :
  fs (snd (promptImportInternetDatabase Demo.offline "/storage"
             (Demo.empty_world empty_disk))) = empty_disk.
Proof.
  destruct (abandoned_import_leaves_no_trace Demo.offline "/storage" None true true
              (Demo.empty_world empty_disk)) as [_ Hurl].
  apply (Hurl _ eq_refl).
Defined.

(** ** Failures and what they leave behind *)

(** X15.  [importArchiveDatabase] and the message "unexpected end of file".  A
    failure of the import whose message contains it is replaced by the
    advice "Database is corrupt or too large", any other failure is passed on
    as it is, and the world is as the import left it; so no error that
    leaves [importArchiveDatabase] contains "unexpected end of file". *)
Theorem importArchiveDatabase_reports_truncated_archives (h : Host)
  (databaseUrl storagePath : string) (w : world) :
  let inner := databaseArchiveFetcher h databaseUrl [] storagePath None
                 (OriginArchive databaseUrl) true (addDatabaseSourceToWorkspace h) w in
  let outer := importArchiveDatabase h databaseUrl storagePath w in
  (forall e, fst inner = Throw e ->
     outer = (Throw (if str_includes (getErrorMessage e) "unexpected end of file"
                     then Error "Database is corrupt or too large. Try unzipping outside of VS Code and importing the unzipped folder instead."
                     else e),
              snd inner)) /\
  (forall e, fst outer = Throw e ->
     str_includes (getErrorMessage e) "unexpected end of file" = false).
Proof.
  intros inner outer. subst inner outer. unfold importArchiveDatabase, try_catch.
  destruct (databaseArchiveFetcher h databaseUrl [] storagePath None
              (OriginArchive databaseUrl) true (addDatabaseSourceToWorkspace h) w)
    as [[item | e0] w1] eqn:Hinner; cbn [fst snd].
  - rewrite (bind_ok _ _ _ _ _ Hinner). split; [discriminate |]. run. discriminate.
  - rewrite (bind_throw _ _ _ _ _ Hinner). split.
    + intros e He. injection He as <-.
      destruct (str_includes (getErrorMessage e0) "unexpected end of file");
        reflexivity.
    + intros e.
      destruct (str_includes (getErrorMessage e0) "unexpected end of file") eqn:Hmsg;
        cbn; intro He; injection He as <-; [reflexivity | exact Hmsg].
Qed.

Lemma importArchiveDatabase_reports_truncated_archives_witness :
  importArchiveDatabase garbage_host "file:///tmp/db.zip" "/storage"
    (Demo.empty_world
       (Dir [("tmp", Dir [("db.zip", File "PK")]); ("storage", Dir [])]))
  = (Throw (Error "Database is corrupt or too large. Try unzipping outside of VS Code and importing the unzipped folder instead."),
     {| fs := Dir [("tmp", Dir [("db.zip", File "PK")]); ("storage", Dir [])];
        events := [Progress {| message := "Getting database"; step := 1; maxStep := 4 |};
                   Progress {| message := "Unzipping into db"; step := 9; maxStep := 10 |};
                   DatabaseUnbundle ["tmp"; "db.zip"] ["storage"; "db"]] |}).
Proof.
  destruct (importArchiveDatabase_reports_truncated_archives garbage_host
              "file:///tmp/db.zip" "/storage"
              (Demo.empty_world
                 (Dir [("tmp", Dir [("db.zip", File "PK")]); ("storage", Dir [])])))
    as [Hmapped _].
  apply (Hmapped (Error "unexpected end of file")). reflexivity.
Defined.

(** X17.  A request that fails, in [fetchAndUnzip].  A request that is aborted by
    the timeout fails as "The request timed out."; any other rejection is
    passed on as it is; a response that is not a success fails with "Error
    downloading database." and the reason, which is what the JSON body names
    or else the body itself.  In each case nothing but the report and the
    request has happened. *)
Theorem failed_request_is_reported (h : Host) (databaseUrl : string)
  (requestHeaders : list (string * string)) (unzipPath : path) (w : world) :
  let requested :=
    {| fs := fs w;
       events := events w ++
         [Progress {| message := "Downloading database"; step := 1; maxStep := 3 |};
          Fetch databaseUrl requestHeaders] |} in
  let run := fetchAndUnzip h databaseUrl requestHeaders unzipPath w in
  (forall reason, fetch h databaseUrl requestHeaders = Rejected (AbortError reason) ->
     run = (Throw (AbortError "The request timed out."), requested)) /\
  (forall reason, fetch h databaseUrl requestHeaders = Rejected (Error reason) ->
     run = (Throw (Error reason), requested)) /\
  (forall r, fetch h databaseUrl requestHeaders = Responded r -> ok r = false ->
     run = (Throw (Error ("Error downloading database." +++ newline +++ newline
                          +++ "Reason: "
                          +++ match JSON_reason h (text r) with
                              | Some named => named
                              | None => text r
                              end)),
            requested)).
Proof.
  intros requested run. subst run requested.
  unfold fetchAndUnzip, checkForFailingResponse. cbv zeta. run.
  repeat split.
  - intros reason ->. cbn. now rewrite <- app_assoc.
  - intros reason ->. cbn. now rewrite <- app_assoc.
  - intros r -> ->. cbn. now rewrite <- app_assoc.
Qed.

Lemma failed_request_is_reported_witness :
  fst (fetchAndUnzip Demo.offline "https://example.com/db.zip" [] ["storage"; "db"]
         (Demo.empty_world empty_disk))
  = Throw (Error "offline").
Proof.
  destruct (failed_request_is_reported Demo.offline "https://example.com/db.zip" []
              ["storage"; "db"] (Demo.empty_world empty_disk)) as (_ & Hother & _).
  now rewrite (Hother "offline" eq_refl).
Defined.

(** X18.  An archive without a database.  When the unpacked tree has no directory
    with a marker, the import fails with "Database not found in archive."
    after the report "Opening database", and the unpacked folder stays where
    it was put: the file system is the one the unpacking left. *)
Theorem archive_without_database_is_left_unpacked (h : Host) (databaseUrl : string)
  (requestHeaders : list (string * string)) (storagePath : string)
  (nameOverride : option string) (origin : DatabaseOrigin)
  (makeSelected addSourceArchiveFolder : bool) (w unpacked : world)
  (unzipPath : path) (tree : node) :
  acquire_and_unpack h databaseUrl requestHeaders storagePath w = (Ok unzipPath, unpacked) ->
  lookup (fs unpacked) unzipPath = Some tree ->
  marker_dirs unzipPath tree [".dbinfo"; "codeql-database.yml"] = [] ->
  databaseArchiveFetcher h databaseUrl requestHeaders storagePath nameOverride origin
    makeSelected addSourceArchiveFolder w
  = (Throw (Error "Database not found in archive."),
     {| fs := fs unpacked;
        events := events unpacked ++
          [Progress {| message := "Opening database"; step := 3; maxStep := 4 |}] |}).
Proof.
  intros Hacquire Htree Hnone. unfold databaseArchiveFetcher.
  rewrite (bind_ok _ _ _ _ _ Hacquire).
  unfold locate_normalize_register, findDirWithFile_at. run.
  now rewrite Htree, findDirWithFile_head, Hnone.
Qed.

Lemma archive_without_database_is_left_unpacked_witness :
  let disk := disk_with_archive (Dir [("README", File "no database here")]) in
  let run := databaseArchiveFetcher Demo.offline "file:///tmp/db.zip" [] "/storage"
               None (OriginArchive "file:///tmp/db.zip") true true
               (Demo.empty_world disk) in
  fst run = Throw (Error "Database not found in archive.") /\
  lookup (fs (snd run)) ["storage"; "db"] = Some (Dir [("README", File "no database here")]).
Proof.
  intros disk run. subst run.
  rewrite (archive_without_database_is_left_unpacked Demo.offline "file:///tmp/db.zip"
             [] "/storage" None (OriginArchive "file:///tmp/db.zip") true true
             (Demo.empty_world disk)
             (snd (acquire_and_unpack Demo.offline "file:///tmp/db.zip" [] "/storage"
                     (Demo.empty_world disk)))
             ["storage"; "db"] (Dir [("README", File "no database here")])
             eq_refl eq_refl eq_refl).
  split; reflexivity.
Defined.

(** ** The language of a pack *)

Lemma filter_singleton {A} (f : A -> bool) (l : list A) (x : A) :
  NoDup l ->
  filter f l = [x] <->
  In x l /\ f x = true /\ (forall y, In y l -> f y = true -> y = x).
Proof.
  intro Hnodup. split.
  - intro Hfilter.
    assert (Hx : In x (filter f l)) by (rewrite Hfilter; now left).
    apply filter_In in Hx as [Hin Hfx]. repeat split; auto.
    intros y Hy Hfy.
    assert (Hyin : In y (filter f l)) by (apply filter_In; auto).
    rewrite Hfilter in Hyin. destruct Hyin as [<- | []]. reflexivity.
  - intros (Hin & Hfx & Honly).
    assert (Hx : In x (filter f l)) by (apply filter_In; auto).
    assert (Hall : forall y, In y (filter f l) -> y = x).
    { intros y Hy. apply filter_In in Hy as [Hy Hfy]. auto. }
    pose proof (NoDup_filter f Hnodup) as Hnd.
    destruct (filter f l) as [| a [| b rest]].
    + destruct Hx.
    + f_equal. apply Hall. now left.
    + exfalso. assert (a = x) by (apply Hall; now left).
      assert (b = x) by (apply Hall; right; now left). subst.
      inversion Hnd as [| ? ? Hnotin _]. apply Hnotin. now left.
Qed.

(** X19.  [getQlPackLanguageFromQlPackFile] returns a language exactly when the
    pack depends on the library [codeql/<language>-all] of that language and
    of no other language; without dependencies, with none of these
    libraries, or with those of two languages, it returns nothing. *)
Theorem qlpack_language_is_the_only_library_language (QueryLanguage : list string)
  (qlPack : QlPackFile) (deps : list (string * string)) (language : string) :
  NoDup QueryLanguage ->
  dependencies qlPack = Some deps ->
  getQlPackLanguageFromQlPackFile QueryLanguage (Some qlPack) = Some language <->
  In language QueryLanguage /\
  has_key ("codeql/" +++ language +++ "-all") deps = true /\
  (forall other, In other QueryLanguage ->
                 has_key ("codeql/" +++ other +++ "-all") deps = true ->
                 other = language).
Proof.
  intros Hnodup Hdeps. unfold getQlPackLanguageFromQlPackFile. rewrite Hdeps.
  rewrite <- (filter_singleton
                (fun l => has_key ("codeql/" +++ l +++ "-all") deps)
                QueryLanguage language Hnodup).
  destruct (filter _ QueryLanguage) as [| a [| b rest]]; split; intro H;
    try discriminate; congruence.
Qed.

Lemma qlpack_language_is_the_only_library_language_witness :
  getQlPackLanguageFromQlPackFile ["cpp"; "java"; "python"]
    (Some {| dependencies := Some [("codeql/java-all", "*"); ("codeql/util", "1.0.0")] |})
  = Some "java".
Proof.
  apply (qlpack_language_is_the_only_library_language ["cpp"; "java"; "python"]
           {| dependencies := Some [("codeql/java-all", "*"); ("codeql/util", "1.0.0")] |}
           [("codeql/java-all", "*"); ("codeql/util", "1.0.0")] "java").
  - repeat constructor; cbn; intuition discriminate.
  - reflexivity.
  - split; [cbn; auto |]. split; [reflexivity |].
    intros other [<- | [<- | [<- | []]]]; cbn; intro H; try discriminate; reflexivity.
Defined.

(** ** The name of the folder *)

Lemma segments_not_nil (s : string) : segments s <> [].
Proof.
  induction s as [| c s IH]; cbn; [discriminate |].
  destruct (Ascii.eqb c slash); [discriminate |].
  destruct (segments s); [congruence | discriminate].
Qed.

Lemma segments_slash (a b : string) :
  segments (a +++ String slash b) = segments a ++ segments b.
Proof.
  induction a as [| c a IH]; cbn.
  - reflexivity.
  - destruct (Ascii.eqb c slash); [now rewrite IH |].
    rewrite IH. pose proof (segments_not_nil a).
    destruct (segments a); [congruence | reflexivity].
Qed.

Lemma segments_no_slash (s : string) : no_slash s = true -> segments s = [s].
Proof.
  induction s as [| c s IH]; cbn; [reflexivity |].
  intro H. apply andb_prop in H as [Hc Hs]. apply negb_true_iff in Hc.
  now rewrite Hc, IH.
Qed.

Lemma basename_of_file (dir name : string) :
  no_slash name = true -> name <> "" ->
  basename (dir +++ String slash name) = name.
Proof.
  intros Hplain Hne. unfold basename.
  rewrite segments_slash, (segments_no_slash name Hplain), filter_app. cbn.
  apply String.eqb_neq in Hne. rewrite Hne. cbn. apply last_last.
Qed.

Lemma substring_all (s : string) : forall m,
  String.length s <= m -> substring 0 m s = s.
Proof.
  induction s as [| c s IH]; intros [| m] H; cbn in *; try reflexivity; try lia.
  now rewrite IH by lia.
Qed.

Lemma substring_prefix (a b : string) :
  substring 0 (String.length a) (a +++ b) = a.
Proof.
  induction a as [| c a IH]; cbn; [now destruct b | now rewrite IH].
Qed.

Lemma substring_suffix (a b : string) :
  substring (String.length a) (String.length b) (a +++ b) = b.
Proof.
  induction a as [| c a IH]; cbn; [| exact IH].
  apply substring_all. lia.
Qed.

Lemma endsWith_append (a b : string) : endsWith (a +++ b) b = true.
Proof.
  unfold endsWith. rewrite string_length_append.
  replace (String.length a + String.length b - String.length b)
    with (String.length a) by lia.
  rewrite substring_suffix, String.eqb_refl, andb_true_r.
  apply Nat.leb_le. lia.
Qed.

Lemma strip_suffix (a b : string) :
  substring 0 (String.length (a +++ b) - String.length b) (a +++ b) = a.
Proof.
  rewrite string_length_append.
  replace (String.length a + String.length b - String.length b)
    with (String.length a) by lia.
  apply substring_prefix.
Qed.

(** X3.  The folder is named after the archive.  For an address whose path ends
    in [/<name>.zip], with a name of at most 246 characters, the folder name
    is [<name>]; for one that ends in [/<name>] with at most 250 characters
    and no [.zip] ending, it is [<name>] as it stands. *)
Theorem folder_is_named_after_the_archive (dir name : string) :
  no_slash name = true ->
  name <> "" ->
  (String.length name <= 246 ->
   folder_base (dir +++ "/" +++ name +++ ".zip") = name) /\
  (String.length name <= 250 -> endsWith name ".zip" = false ->
   folder_base (dir +++ "/" +++ name) = name).
Proof.
  intros Hplain Hne. split.
  - intro Hshort.
    assert (Hzip : no_slash (name +++ ".zip") = true).
    { clear Hne Hshort. induction name as [| c name IH]; cbn in *; [reflexivity |].
      apply andb_prop in Hplain as [-> Hrest]. cbn. auto. }
    assert (Hnamed : name +++ ".zip" <> "") by (destruct name; discriminate).
    unfold folder_base.
    change (dir +++ "/" +++ name +++ ".zip")
      with (dir +++ String slash (name +++ ".zip")).
    rewrite (basename_of_file dir _ Hzip Hnamed).
    rewrite substring_all by (rewrite string_length_append; cbn; lia).
    rewrite endsWith_append. apply (strip_suffix name ".zip").
  - intros Hshort Hother. unfold folder_base.
    change (dir +++ "/" +++ name) with (dir +++ String slash name).
    rewrite (basename_of_file dir _ Hplain Hne).
    rewrite substring_all by assumption. now rewrite Hother.
Qed.

Lemma folder_is_named_after_the_archive_witness :
  folder_base ("/downloads" +++ "/" +++ "simple-db" +++ ".zip") = "simple-db".
Proof.
  refine (proj1 (folder_is_named_after_the_archive "/downloads" "simple-db" _ _) _);
    [reflexivity | discriminate | cbn; lia].
Defined.

(** ** Failures of the resolution *)





